(** * Bot-Detector core: token verification and the paginated SQL helper

    A shallow embedding of [api/database/functions.py] and of the token
    guard of [src/api/v2/highscore.py], with the properties of the written
    specification stated and proved over it.

    Layout:
    - [Py]         the fragment of Python the two files rely on: [str]
                   methods, values and [==], exceptions, [namedtuple],
                   binding of call arguments;
    - [Functions]  [execute_sql], [sql_cursor], [sqlalchemy_result],
                   [verify_token];
    - [Highscore]  [verify_and_log_token] and the guarded endpoints;
    - [Spec]       the notions the written specification speaks of;
    - [Samples]    the data of the examples;
    - [FunctionsSpec], [HighscoreSpec], [ExecutorSpec], [CursorSpec]
                   the theorems, on token verification, the router, the
                   executor and the result wrappers;
    - [JoinSpec], [ResultRowsSpec], [VerifySpec], [CallSpec],
      [ClassifySpec], [RunSpec], [CursorMoreSpec]
                   further properties: [list_to_string], the wrapper of
                   ORM rows, the outcomes of [verify_token], calls and
                   the guard, the read/write classification, the runs of
                   [execute_sql], the cursor. *)

From Stdlib Require Import ZArith Ascii String List Bool Lia.
From Stdlib Require Import DecimalString DecimalZ.
From stdpp Require Import base option gmap strings list fin_maps.

Local Open Scope Z_scope.
Local Open Scope string_scope.

(* ===================================================================== *)
(** * Python primitives *)
(* ===================================================================== *)

Module Py.

(** ** Strings

    A Python [str] is modelled by a Rocq [string]; a character stands for
    the code point of the same number, so the model covers the texts whose
    code points are below 256 (ASCII and Latin-1). *)

Definition ord (c : ascii) : N := N_of_ascii c.

(** [str.isspace] on one character. *)
Definition isspace (c : ascii) : bool :=
  let n := ord c in
  (((9 <=? n) && (n <=? 13)) || ((28 <=? n) && (n <=? 32))
   || (n =? 133) || (n =? 160))%N.

(** [str.lower] on one character: [A-Z] and the Latin-1 capitals. *)
Definition lower_char (c : ascii) : ascii :=
  let n := ord c in
  if (((65 <=? n) && (n <=? 90))
      || ((192 <=? n) && (n <=? 222) && negb (n =? 215)))%N
  then ascii_of_N (n + 32) else c.

Fixpoint lower (s : string) : string :=
  match s with
  | EmptyString => EmptyString
  | String c s' => String (lower_char c) (lower s')
  end.

Fixpoint lstrip (s : string) : string :=
  match s with
  | EmptyString => EmptyString
  | String c s' => if isspace c then lstrip s' else s
  end.

Fixpoint rstrip (s : string) : string :=
  match s with
  | EmptyString => EmptyString
  | String c s' =>
      match rstrip s' with
      | EmptyString => if isspace c then EmptyString else String c EmptyString
      | r => String c r
      end
  end.

(** [s.strip()] *)
Definition strip (s : string) : string := rstrip (lstrip s).

(** [s.startswith(p)] *)
Definition startswith (s p : string) : bool := String.prefix p s.

(** [str.isidentifier]: XID_Start (or [_]) then XID_Continue. *)
Definition is_xid_start (c : ascii) : bool :=
  let n := ord c in
  (((65 <=? n) && (n <=? 90)) || ((97 <=? n) && (n <=? 122))
   || (n =? 170) || (n =? 181) || (n =? 186)
   || ((192 <=? n) && (n <=? 214)) || ((216 <=? n) && (n <=? 246))
   || (248 <=? n))%N.

Definition is_xid_continue (c : ascii) : bool :=
  let n := ord c in
  (is_xid_start c || ((48 <=? n) && (n <=? 57)) || (n =? 95) || (n =? 183))%N.

Fixpoint all_chars (p : ascii -> bool) (s : string) : bool :=
  match s with
  | EmptyString => true
  | String c s' => p c && all_chars p s'
  end.

Definition isidentifier (s : string) : bool :=
  match s with
  | EmptyString => false
  | String c s' =>
      (is_xid_start c || (ord c =? 95)%N) && all_chars is_xid_continue s'
  end.

(** [keyword.kwlist] *)
Definition kwlist : list string :=
  [ "False"; "None"; "True"; "and"; "as"; "assert"; "async"; "await";
    "break"; "class"; "continue"; "def"; "del"; "elif"; "else"; "except";
    "finally"; "for"; "from"; "global"; "if"; "import"; "in"; "is";
    "lambda"; "nonlocal"; "not"; "or"; "pass"; "raise"; "return"; "try";
    "while"; "with"; "yield" ].

Definition mem_str (s : string) (l : list string) : bool :=
  existsb (String.eqb s) l.

Definition iskeyword (s : string) : bool := mem_str s kwlist.

(** ** Values and [==] *)

Inductive value : Type :=
| VNone
| VBool (b : bool)
| VInt (n : Z)
| VStr (s : string).

(** [bool] is a subclass of [int]: [True == 1]. *)
Definition as_int (v : value) : option Z :=
  match v with
  | VBool b => Some (if b then 1 else 0)
  | VInt n => Some n
  | _ => None
  end.

(** [a == b] *)
Definition equals (a b : value) : bool :=
  match a, b with
  | VNone, VNone => true
  | VStr s, VStr t => String.eqb s t
  | _, _ =>
      match as_int a, as_int b with
      | Some x, Some y => (x =? y)%Z
      | _, _ => false
      end
  end.

(** Python dictionaries with [str] keys. *)
Abbreviation dict := (gmap string value).

(** ** Exceptions *)

(** Why a call is refused with [TypeError]. *)
Inductive type_error : Type :=
| UnexpectedKeyword (name : string)
| MultipleValues (name : string)
| TooManyPositional
| MissingArgument (name : string).

(** Why [namedtuple] refuses its names with [ValueError]. *)
Inductive value_error : Type :=
| NotIdentifier (name : string)
| IsKeyword (name : string)
| LeadingUnderscore (name : string)
| DuplicateField (name : string).

(** The exception classes met in the two files; [DBAPIError] stands for
    the errors of the store and carries the message of the driver. *)
Inductive exn : Type :=
| HTTPException (status_code : Z) (detail : string)
| TypeError (why : type_error)
| ValueError (why : value_error)
| IndexError
| AttributeError (name : string)
| ResourceClosedError
| SyntaxError (name : string)
| DBAPIError (msg : string).

Inductive result (A : Type) : Type :=
| Return (a : A)
| Raise (e : exn).
Arguments Return {A} a.
Arguments Raise {A} e.

Definition bind {A B} (r : result A) (k : A -> result B) : result B :=
  match r with
  | Return a => k a
  | Raise e => Raise e
  end.

Fixpoint mapM {A B} (f : A -> result B) (l : list A) : result (list B) :=
  match l with
  | [] => Return []
  | a :: l' =>
      bind (f a) (fun b => bind (mapM f l') (fun bs => Return (b :: bs)))
  end.

(** ** [collections.namedtuple] *)

(** The class made by [namedtuple(typename, field_names)] is given by its
    field names; an instance keeps them with its items. *)
Record record : Type := { _fields : list string; items : list value }.

Fixpoint check_names (names : list string) : result unit :=
  match names with
  | [] => Return tt
  | name :: rest =>
      if negb (isidentifier name) then Raise (ValueError (NotIdentifier name))
      else if iskeyword name then Raise (ValueError (IsKeyword name))
      else check_names rest
  end.

Fixpoint check_fields (seen names : list string) : result unit :=
  match names with
  | [] => Return tt
  | name :: rest =>
      if startswith name "_" then Raise (ValueError (LeadingUnderscore name))
      else if mem_str name seen then Raise (ValueError (DuplicateField name))
      else check_fields (name :: seen) rest
  end.

(** The normal form (NFKC) the parser gives an identifier.  Of the
    identifier characters below 256 it changes the two ordinal indicators,
    which become [a] and [o], and the micro sign, whose image lies above
    255 and meets no other character of the model: it is left in place. *)
Definition nfkc_char (c : ascii) : ascii :=
  if (ord c =? 170)%N then "a"%char
  else if (ord c =? 186)%N then "o"%char
  else c.

Fixpoint nfkc (s : string) : string :=
  match s with
  | EmptyString => EmptyString
  | String c s' => String (nfkc_char c) (nfkc s')
  end.

(** The constructor of the class is compiled from a [lambda] whose
    parameters are [_cls] and the field names: two parameters with the
    same normal form make the compilation raise [SyntaxError]. *)
Fixpoint check_arguments (seen names : list string) : result unit :=
  match names with
  | [] => Return tt
  | name :: rest =>
      if mem_str (nfkc name) seen then Raise (SyntaxError (nfkc name))
      else check_arguments (nfkc name :: seen) rest
  end.

Definition namedtuple (typename : string) (field_names : list string)
  : result (list string) :=
  bind (check_names (typename :: field_names)) (fun _ =>
  bind (check_fields [] field_names) (fun _ =>
  bind (check_arguments ["_cls"] field_names) (fun _ =>
  Return field_names))).

(** The constructor call of the class on an unpacked row. *)
Definition new (cls : list string) (args : list value) : result record :=
  if (length args =? length cls)%nat
  then Return {| _fields := cls; items := args |}
  else if (length args <? length cls)%nat
       then Raise (TypeError (MissingArgument (nth (length args) cls "")))
       else Raise (TypeError TooManyPositional).

Fixpoint field_lookup (names : list string) (vals : list value)
    (name : string) : option value :=
  match names, vals with
  | n :: names', v :: vals' =>
      if String.eqb n name then Some v else field_lookup names' vals' name
  | _, _ => None
  end.

(** [r.name] for a field name of the class. *)
Definition getattr (r : record) (name : string) : result value :=
  match field_lookup (_fields r) (items r) name with
  | Some v => Return v
  | None => Raise (AttributeError name)
  end.

(** ** Binding the arguments of a call

    A function whose parameters are all positional-or-keyword without
    defaults, called with positional and keyword arguments. *)

Definition bound {A} (b : list (string * A)) (name : string) : option A :=
  snd <$> List.find (fun kv => String.eqb (fst kv) name) b.

Fixpoint bind_keywords {A} (params : list string) (b : list (string * A))
    (kw : list (string * A)) : result (list (string * A)) :=
  match kw with
  | [] => Return b
  | (k, a) :: kw' =>
      if negb (mem_str k params) then Raise (TypeError (UnexpectedKeyword k))
      else match bound b k with
           | Some _ => Raise (TypeError (MultipleValues k))
           | None => bind_keywords params (b ++ [(k, a)])%list kw'
           end
  end.

Fixpoint check_missing {A} (params : list string) (b : list (string * A))
  : result unit :=
  match params with
  | [] => Return tt
  | p :: params' =>
      match bound b p with
      | Some _ => check_missing params' b
      | None => Raise (TypeError (MissingArgument p))
      end
  end.

(** The positional arguments fill the first parameters, the keywords are
    matched by name, then the count of positional arguments and the
    parameters left without a value are checked. *)
Definition bind_args {A} (params : list string) (pos : list A)
    (kw : list (string * A)) : result (list (string * A)) :=
  bind (bind_keywords params (combine params pos) kw) (fun b =>
  if (length params <? length pos)%nat then Raise (TypeError TooManyPositional)
  else bind (check_missing params b) (fun _ => Return b)).

(** ** [str] of a value and [str.join] *)

(** [str(v)]: an integer in decimal, with a minus sign when negative. *)
Definition str (v : value) : string :=
  match v with
  | VNone => "None"
  | VBool true => "True"
  | VBool false => "False"
  | VInt n => NilZero.string_of_int (Z.to_int n)
  | VStr s => s
  end.

(** [sep.join(parts)] *)
Fixpoint join (sep : string) (parts : list string) : string :=
  match parts with
  | [] => ""
  | [s] => s
  | s :: rest => s ++ sep ++ join sep rest
  end.

End Py.

(* ===================================================================== *)
(** * api/database/functions.py *)
(* ===================================================================== *)

Module Functions.
Import Py.

(** ** [list_to_string] *)

Definition list_to_string (l : list value) : string :=
  let string_list := join ", " (map str l) in
  string_list.

(** ** The [Token] model and the token table *)

(** Modelled from the spec: the ORM class [Token] of [api.database.models]
    is not among the sources.  A token record has the lookup key [token]
    and one flag per capability: request-highscores, verify-ban,
    create-token and verify-players, named as [verify_token] reads them. *)
Record Token : Type := {
  token : string;
  request_highscores : value;
  verify_ban : value;
  create_token : value;
  verify_players : value
}.

(** The names of [Token.__table__.columns], in order. *)
Definition Token_columns : list string :=
  [ "token"; "request_highscores"; "verify_ban"; "create_token";
    "verify_players" ].

(** [getattr(row, name)] on a [Token]. *)
Definition Token_getattr (row : Token) (name : string) : result value :=
  if String.eqb name "token" then Return (VStr (token row))
  else if String.eqb name "request_highscores" then Return (request_highscores row)
  else if String.eqb name "verify_ban" then Return (verify_ban row)
  else if String.eqb name "create_token" then Return (create_token row)
  else if String.eqb name "verify_players" then Return (verify_players row)
  else Raise (AttributeError name).

(** What [session.execute(select(Token).where(Token.token == token))]
    yields over the token table [db]: one 1-tuple per row whose [token]
    is the given string, in table order. *)
Definition select_Token_where_token (db : list Token) (tok : string)
  : list (list Token) :=
  map (fun r => [r]) (filter (fun r => token r = tok) db).

(** ** The result object of a textual statement

    SQLAlchemy's [CursorResult]: [description] is [None] for a statement
    that returns no rows, otherwise the column names; [pending] are the
    rows not fetched yet.  A result that does not return rows raises
    [ResourceClosedError] when its keys or rows are asked for; fetching
    all rows leaves none behind. *)
Record CursorResult : Type := {
  description : option (list string);
  pending : list (list value)
}.

(** [rows.keys()] *)
Definition keys (r : CursorResult) : result (list string) :=
  match description r with
  | Some ks => Return ks
  | None => Raise ResourceClosedError
  end.

Definition exhausted (r : CursorResult) : CursorResult :=
  {| description := description r; pending := [] |}.

(** [rows.fetchall()] *)
Definition fetchall (r : CursorResult)
  : result (list (list value)) * CursorResult :=
  match description r with
  | Some _ => (Return (pending r), exhausted r)
  | None => (Raise ResourceClosedError, r)
  end.

(** [rows.mappings().all()]: every row as an ordered mapping from the
    column names. *)
Definition mappings_all (r : CursorResult)
  : result (list (list (string * value))) * CursorResult :=
  match description r with
  | Some ks => (Return (map (combine ks) (pending r)), exhausted r)
  | None => (Raise ResourceClosedError, r)
  end.

(** ** [class sql_cursor] *)
Module sql_cursor.

Record t : Type := { rows : CursorResult }.

Definition __init__ (rows : CursorResult) : t := {| rows := rows |}.

Definition rows2dict (self : t)
  : result (list (list (string * value))) * t :=
  let (r, rows') := mappings_all (rows self) in
  (r, {| rows := rows' |}).

Definition rows2tuple (self : t) : result (list record) * t :=
  match bind (keys (rows self)) (namedtuple "Record") with
  | Raise e => (Raise e, self)
  | Return Record =>
      let (fetched, rows') := fetchall (rows self) in
      (bind fetched (mapM (new Record)), {| rows := rows' |})
  end.

End sql_cursor.

(** ** [class sqlalchemy_result] *)
Module sqlalchemy_result.

Record t : Type := { rows : list Token }.

(** [row[0]] on a result row. *)
Definition first_item (row : list Token) : result Token :=
  match row with
  | x :: _ => Return x
  | [] => Raise IndexError
  end.

Definition __init__ (rows : list (list Token)) : result t :=
  bind (mapM first_item rows) (fun l => Return {| rows := l |}).

Definition rows2dict (self : t) : result (list dict) :=
  mapM (fun row =>
          bind (mapM (fun col => bind (Token_getattr row col)
                                   (fun v => Return (col, v)))
                     Token_columns)
               (fun kvs => Return (list_to_map kvs : dict)))
       (rows self).

Definition rows2tuple (self : t) : result (list record) :=
  match rows self with
  | [] => Raise IndexError
  | _ :: _ =>
      let columns := Token_columns in
      bind (namedtuple "Record" columns) (fun Record =>
      mapM (fun row =>
              bind (mapM (Token_getattr row) Token_columns) (new Record))
           (rows self))
  end.

End sqlalchemy_result.

(** ** [verify_token] *)

Definition insufficient (verifcation : string) : exn :=
  HTTPException 404 ("insufficient permissions: " ++ verifcation).

Definition verify_token (db : list Token) (tok verifcation : string)
  : result bool :=
  let data := select_Token_where_token db tok in
  bind (sqlalchemy_result.__init__ data) (fun data =>
  if (length (sqlalchemy_result.rows data) =? 0)%nat then
    Raise (insufficient verifcation)
  else
    bind (sqlalchemy_result.rows2tuple data) (fun player_token =>
    match player_token with
    | [] => Raise (insufficient verifcation)
    | player_token_0 :: _ =>
        bind (getattr player_token_0 "request_highscores") (fun f_hiscore =>
        bind (getattr player_token_0 "verify_ban") (fun f_ban =>
        bind (getattr player_token_0 "create_token") (fun f_create =>
        bind (getattr player_token_0 "verify_players") (fun f_players =>
        let permissions : dict :=
          <["verify_players" := f_players]>
            (<["create_token" := f_create]>
               (<["ban" := f_ban]>
                  (<["hiscore" := f_hiscore]> ∅))) in
        if equals (default (VInt 0) (permissions !! verifcation)) (VInt 1)
        then Return true
        else Raise (insufficient verifcation)))))
    end)).

(** ** The engine, the store and the objects [execute_sql] works on *)

(** Dictionaries are objects: a call receives a reference, and an
    assignment to a key is seen through every reference to the object. *)
Abbreviation loc := positive.

(** What the engine and the session do, in order of occurrence. *)
Inductive event : Type :=
| LogDebug (line : string)
| Connect (reused : bool)
| SessionOpen
| Execute (sql : string) (param : dict)
| Commit
| SessionClose
| Release
| Dispose.

(** [idle] counts the connections the pool of the engine holds ready for
    reuse, [checked_out] those handed out by [engine.connect()]. *)
Record world : Type := {
  heap : gmap loc dict;
  idle : nat;
  checked_out : nat;
  trace : list event
}.

(** How the store answers during one call: whether a connection can be
    made, what a statement with its bound parameters returns, whether the
    commit goes through. *)
Record store : Type := {
  on_connect : option exn;
  on_execute : string -> dict -> result CursorResult;
  on_commit : option exn
}.

(** State and exceptions. *)
Definition M (A : Type) : Type := world -> result A * world.

Definition ret {A} (a : A) : M A := fun w => (Return a, w).

Definition raise {A} (e : exn) : M A := fun w => (Raise e, w).

Definition mbind {A B} (c : M A) (k : A -> M B) : M B :=
  fun w =>
    match c w with
    | (Return a, w') => k a w'
    | (Raise e, w') => (Raise e, w')
    end.

Declare Scope py_scope.
Delimit Scope py_scope with py.
Notation "x <- c ;; k" := (mbind c (fun x => k))
  (at level 100, c at next level, right associativity) : py_scope.
Notation "c ;;; k" := (mbind c (fun _ => k))
  (at level 100, right associativity) : py_scope.

Definition emit (e : event) : M unit :=
  fun w => (Return tt,
            {| heap := heap w; idle := idle w; checked_out := checked_out w;
               trace := (trace w ++ [e])%list |}).

(** [d[key] = v] on the dictionary object at [d]. *)
Definition setitem (d : loc) (key : string) (v : value) : M unit :=
  fun w => (Return tt,
            {| heap := <[d := <[key := v]> (heap w !!! d)]> (heap w);
               idle := idle w; checked_out := checked_out w;
               trace := trace w |}).

(** The current contents of the dictionary object at [d]. *)
Definition deref (d : loc) : M dict := fun w => (Return (heap w !!! d), w).

(** [async with cm as x: body]: the exit action runs on every way out of
    the body and the outcome of the body is passed on. *)
Definition with_ {A B} (enter : M A) (exit : M unit) (body : A -> M B) : M B :=
  fun w =>
    match enter w with
    | (Raise e, w1) => (Raise e, w1)
    | (Return x, w1) =>
        let (r, w2) := body x w1 in
        let (_, w3) := exit w2 in
        (r, w3)
    end.

(** [engine.connect()]: a pooled connection if there is one, else a new
    one. *)
Definition engine_connect (db : store) : M unit :=
  fun w =>
    match on_connect db with
    | Some e => (Raise e, w)
    | None =>
        (Return tt,
         {| heap := heap w;
            idle := Nat.pred (idle w);
            checked_out := S (checked_out w);
            trace := (trace w ++ [Connect (0 <? idle w)%nat])%list |})
    end.

(** Leaving the connection block hands the connection back to the pool. *)
Definition connection_release : M unit :=
  fun w => (Return tt,
            {| heap := heap w;
               idle := S (idle w);
               checked_out := Nat.pred (checked_out w);
               trace := (trace w ++ [Release])%list |}).

(** [engine.dispose()] closes every connection the pool holds. *)
Definition engine_dispose : M unit :=
  fun w => (Return tt,
            {| heap := heap w; idle := 0%nat; checked_out := checked_out w;
               trace := (trace w ++ [Dispose])%list |}).

(** [session.execute(sql, param)] *)
Definition session_execute (db : store) (sql : string) (param : loc)
  : M CursorResult :=
  (d <- deref param ;;
   emit (Execute sql d) ;;;
   match on_execute db sql d with
   | Return rows => ret rows
   | Raise e => raise e
   end)%py.

(** [session.commit()] *)
Definition session_commit (db : store) : M unit :=
  match on_commit db with
  | Some e => raise e
  | None => emit Commit
  end.

(** [text(sql)] keeps the statement text. *)
Definition text (sql : string) : string := sql.

(** ** [execute_sql] *)

(** The dictionary made once, when the [def] is evaluated, as the default
    of [param]. *)
Definition default_param : loc := 1%positive.

(** The world right after the module is loaded. *)
Definition initial_world : world :=
  {| heap := {[ default_param := ∅ ]}; idle := 0%nat; checked_out := 0%nat;
     trace := [] |}.

(** [sql.strip().lower().startswith('select')] *)
Definition has_return (sql : string) : bool :=
  if startswith (lower (strip sql)) "select" then true else false.

(** [param = None] stands for a call that leaves the argument out. *)
Definition execute_sql (db : store) (sql : string) (param : option loc)
    (debug : bool) (row_count page : Z) : M (option sql_cursor.t) :=
  (let param := default default_param param in
   let has_return := has_return sql in
   sql <- (if has_return then
             let row_count := if (row_count <=? 100000)%Z then row_count else 100000 in
             let page := if (page >=? 1)%Z then page else 1 in
             let offset := ((page - 1) * row_count)%Z in
             let sql := sql ++ " limit :offset, :row_count" in
             setitem param "offset" (VInt offset) ;;;
             setitem param "row_count" (VInt row_count) ;;;
             ret sql
           else ret sql) ;;
   let sql := text sql in
   (if debug then
      emit (LogDebug "has_return") ;;; emit (LogDebug "sql") ;;; emit (LogDebug "param")
    else ret tt) ;;;
   records <- with_ (engine_connect db) connection_release (fun conn =>
                with_ (emit SessionOpen) (emit SessionClose) (fun session =>
                  rows <- session_execute db sql param ;;
                  let records :=
                    if has_return then Some (sql_cursor.__init__ rows)
                    else None in
                  session_commit db ;;;
                  ret records)) ;;
   engine_dispose ;;;
   ret records)%py.

End Functions.

(* ===================================================================== *)
(** * src/api/v2/highscore.py *)
(* ===================================================================== *)

Module Highscore.
Import Py Functions.

Section Router.

(** The request object of the framework. *)
Variable Request : Type.

(** [src.utils.logging_helpers.build_route_log_string] is not among the
    sources: it is a parameter, which returns a text or raises. *)
Variable build_route_log_string : Request -> result string.

(** [str(e)], the text an exception renders to. *)
Variable str : exn -> string.

(** What an endpoint returns. *)
Variable Response : Type.

Definition HTTP_403_FORBIDDEN : Z := 403.

(** The parameters of [verify_token(token, verifcation)]. *)
Definition verify_token_params : list string := [ "token"; "verifcation" ].

(** A call of [verify_token]: the arguments are bound to the parameters,
    then the body runs. *)
Definition call_verify_token (db : list Token) (pos : list string)
    (kw : list (string * string)) : result bool :=
  bind (bind_args verify_token_params pos kw) (fun b =>
  match bound b "token", bound b "verifcation" with
  | Some tok, Some verifcation => verify_token db tok verifcation
  | None, _ => Raise (TypeError (MissingArgument "token"))
  | _, None => Raise (TypeError (MissingArgument "verifcation"))
  end).

(** A function as its callers see it: positional and keyword arguments
    in, a value or an exception out. *)
Definition callee : Type :=
  list string -> list (string * string) -> result bool.

(** [src.database.functions], from which the router imports
    [verify_token], is not among the sources: the imported function is
    the parameter [verify_token]. *)
Definition verify_and_log_token (verify_token : callee) (request : Request)
    (tok : string) : result unit :=
  match
    bind (build_route_log_string request) (fun route =>
    verify_token [tok]
      [ ("verification", "verify_ban"); ("route", route) ])
  with
  | Return _ => Return tt
  | Raise e =>
      Raise (HTTPException HTTP_403_FORBIDDEN
               ("Token verification failed: " ++ str e))
  end.

(** An endpoint declared with [_=Depends(verify_and_log_token)]: the
    dependency is resolved first and the handler body runs only when it
    returns.  The three routes of the router have this shape. *)
Definition endpoint (verify_token : callee) (body : result Response)
    (request : Request) (tok : string) : result Response :=
  bind (verify_and_log_token verify_token request tok) (fun _ => body).

(** The status of the response: the one of a raised [HTTPException],
    [ok] for a returned value, 500 for any other exception. *)
Definition status_of {A} (ok : Z) (r : result A) : Z :=
  match r with
  | Return _ => ok
  | Raise (HTTPException status_code _) => status_code
  | Raise _ => 500
  end.

End Router.

End Highscore.

(* ===================================================================== *)
(** * The notions of the written specification *)
(* ===================================================================== *)

Module Spec.
Import Py Functions.

(** The Permission Registry of the specification: the closed mapping from
    a permission name to a flag of the token record. *)
Definition registry (permission : string) : option (Token -> value) :=
  if String.eqb permission "hiscore" then Some request_highscores
  else if String.eqb permission "ban" then Some verify_ban
  else if String.eqb permission "create_token" then Some create_token
  else if String.eqb permission "verify_players" then Some verify_players
  else None.

(** The names the registry knows. *)
Definition registry_names : list string :=
  [ "hiscore"; "ban"; "create_token"; "verify_players" ].

(** A flag is granted when its value equals 1. *)
Definition granted (v : value) : bool := equals v (VInt 1).

(** At most one row per token value. *)
Definition unique_tokens (db : list Token) : Prop := NoDup (map token db).

(** [PermissionDenied] carrying the requested permission name. *)
Definition PermissionDenied (permission : string) : exn :=
  HTTPException 404 ("insufficient permissions: " ++ permission).

(** ** Observations on a run of [execute_sql] *)

(** The events a call added to the trace. *)
Definition new_events (before after : world) : list event :=
  drop (length (trace before)) (trace after).

(** The statements sent to the store, each with the mapping bound to it. *)
Fixpoint executed (evs : list event) : list (string * dict) :=
  match evs with
  | [] => []
  | Execute sql param :: evs' => (sql, param) :: executed evs'
  | _ :: evs' => executed evs'
  end.

(** The lines the [debug] flag adds. *)
Definition debug_lines (debug : bool) : list event :=
  if debug then [LogDebug "has_return"; LogDebug "sql"; LogDebug "param"] else [].

(** The mapping a read statement is bound to, from the mapping passed. *)
Definition paginated (d : dict) (row_count page : Z) : dict :=
  let rc := if (row_count <=? 100000)%Z then row_count else 100000 in
  let pg := if (page >=? 1)%Z then page else 1 in
  <["row_count" := VInt rc]> (<["offset" := VInt ((pg - 1) * rc)]> d).

(** [mapping[key]] on a row given as an ordered mapping; of two columns
    of one name the later one answers. *)
Fixpoint mapping_get (m : list (string * value)) (key : string)
  : option value :=
  match m with
  | [] => None
  | (k, v) :: m' =>
      match mapping_get m' key with
      | Some v' => Some v'
      | None => if String.eqb k key then Some v else None
      end
  end.

(** A row as a mapping and the same row as a record hold the same value
    under every column name. *)
Definition agree (columns : list string) (d : list (string * value))
    (t : record) : Prop :=
  forall col, In col columns ->
    exists v, mapping_get d col = Some v /\ getattr t col = Return v.

(** Both materializations of an unread result succeed, row for row, and
    agree on every column. *)
Definition same_values (c : CursorResult) : Prop :=
  exists columns ds ts,
    keys c = Return columns
    /\ fst (sql_cursor.rows2dict (sql_cursor.__init__ c)) = Return ds
    /\ fst (sql_cursor.rows2tuple (sql_cursor.__init__ c)) = Return ts
    /\ length ds = length (pending c)
    /\ Forall2 (agree columns) ds ts.

(** Modelled from the spec: the body of the function [verify_token] of
    [src.database.functions], which the router imports and which is not
    among the sources.  It is the Token Verifier of the specification:
    the first row of the token decides, the registry resolves the
    permission, and everything but a granted flag is denied. *)
Definition spec_verify (db : list Token) (tok permission : string)
  : result bool :=
  match filter (fun r => token r = tok) db with
  | [] => Raise (PermissionDenied permission)
  | row :: _ =>
      match registry permission with
      | Some field =>
          if granted (field row) then Return true
          else Raise (PermissionDenied permission)
      | None => Raise (PermissionDenied permission)
      end
  end.

(** Modelled from the spec: a call of that function.  The specification
    gives the contract [verify(token, permission)] and no parameter
    names, so the names [params] are left open; the token is read from
    the first parameter and the permission from [permission_param]. *)
Definition spec_verify_token (params : list string)
    (permission_param : string) (db : list Token) : Highscore.callee :=
  fun pos kw =>
    bind (bind_args params pos kw) (fun b =>
    match bound b (nth 0 params ""), bound b permission_param with
    | Some tok, Some permission => spec_verify db tok permission
    | None, _ => Raise (TypeError (MissingArgument (nth 0 params "")))
    | _, None => Raise (TypeError (MissingArgument permission_param))
    end).

(** How often a call connected, sent a statement, committed. *)
Definition is_connect (e : event) : bool :=
  match e with Connect _ => true | _ => false end.

Definition is_execute (e : event) : bool :=
  match e with Execute _ _ => true | _ => false end.

Definition is_commit (e : event) : bool :=
  match e with Commit => true | _ => false end.

Definition times (p : event -> bool) (evs : list event) : nat :=
  length (List.filter p evs).

(** A text without a comma. *)
Definition comma_free (s : string) : Prop :=
  all_chars (fun c => negb (Ascii.eqb c ",")) s = true.

(** The field names [namedtuple] takes: identifiers that are no keywords
    and do not start with an underscore, each once. *)
Definition field_name_ok (name : string) : Prop :=
  isidentifier name = true /\ iskeyword name = false
  /\ startswith name "_" = false.

End Spec.

(* ===================================================================== *)
(** * Sample data *)
(* ===================================================================== *)

Module Samples.
Import Py Functions.

(** The record [rows2tuple] makes of a token row. *)
Definition Token_record (row : Token) : record :=
  {| _fields := Token_columns;
     items := [ VStr (token row); request_highscores row; verify_ban row;
                create_token row; verify_players row ] |}.

(** The rows of the scenario of the specification: token [abc] may verify
    bans and may not request highscores. *)
Definition token_abc : Token :=
  {| token := "abc"; request_highscores := VInt 0; verify_ban := VInt 1;
     create_token := VInt 0; verify_players := VInt 0 |}.

Definition token_xyz : Token :=
  {| token := "xyz"; request_highscores := VInt 1; verify_ban := VInt 0;
     create_token := VBool true; verify_players := VNone |}.

(** White space: a blank, a tab and a line feed; a carriage return and a
    line feed. *)
Definition padding_before : string :=
  String " " (String (ascii_of_N 9) (String (ascii_of_N 10) EmptyString)).

Definition padding_after : string :=
  String (ascii_of_N 13) (String (ascii_of_N 10) EmptyString).

(** A second row for the token [abc], with the ban flag taken away. *)
Definition token_abc_revoked : Token :=
  {| token := "abc"; request_highscores := VInt 0; verify_ban := VInt 0;
     create_token := VInt 0; verify_players := VInt 0 |}.

(** A row whose flags are truthy without being 1. *)
Definition token_truthy : Token :=
  {| token := "t2"; request_highscores := VInt 2; verify_ban := VStr "1";
     create_token := VBool true; verify_players := VInt (-1) |}.

(** A route text for every request, and a rendering of exceptions. *)
Definition route_sample (request : unit) : result string :=
  Return "GET /v2/hiscore".

Definition render_sample (e : exn) : string :=
  match e with
  | HTTPException _ detail => detail
  | DBAPIError msg => msg
  | _ => "error"
  end.

(** A store that accepts every statement and returns one row. *)
Definition store_ok : store :=
  {| on_connect := None;
     on_execute := fun _ _ =>
       Return {| description := Some ["id"; "score"];
                 pending := [[VInt 7; VInt 99]] |};
     on_commit := None |}.

(** A store that rejects every statement. *)
Definition store_rejecting : store :=
  {| on_connect := None;
     on_execute := fun _ _ =>
       Raise (DBAPIError "You have an error in your SQL syntax");
     on_commit := None |}.

(** A store that answers the paginated scores query with two rows and
    rejects every other statement. *)
Definition store_by_statement : store :=
  {| on_connect := None;
     on_execute := fun sql _ =>
       if String.eqb sql "select * from scores limit :offset, :row_count"
       then Return {| description := Some ["id"; "score"];
                      pending := [[VInt 7; VInt 99]; [VInt 8; VNone]] |}
       else Raise (DBAPIError "You have an error in your SQL syntax");
     on_commit := None |}.

(** A store that cannot be reached. *)
Definition store_down : store :=
  {| on_connect := Some (DBAPIError "Can't connect to MySQL server");
     on_execute := fun _ _ => Raise (DBAPIError "unreachable");
     on_commit := None |}.

(** A caller's mapping that already uses the reserved names. *)
Definition caller_loc : loc := 2%positive.

Definition caller_param : dict :=
  <["offset" := VInt 999]> (<["player" := VStr "zezima"]> ∅).

Definition world_with_caller : world :=
  {| heap := <[caller_loc := caller_param]> (heap initial_world);
     idle := 0%nat; checked_out := 0%nat; trace := [] |}.

(** The result of a query for the highest score of a table. *)
Definition result_max : CursorResult :=
  {| description := Some ["max(score)"]; pending := [[VInt 3]] |}.

(** The result of a statement that returns no rows: no column, no row. *)
Definition result_no_rows : CursorResult :=
  {| description := None; pending := [] |}.

(** A result with two columns and two rows. *)
Definition result_scores : CursorResult :=
  {| description := Some ["id"; "score"];
     pending := [[VInt 7; VInt 99]; [VInt 8; VNone]] |}.

End Samples.

(* ===================================================================== *)
(** * Properties of api/database/functions.py *)
(* ===================================================================== *)

Module FunctionsSpec.
Import Py Functions Spec Samples.

(** ** Token verification *)

Lemma init_of_select (l : list Token) :
  sqlalchemy_result.__init__ (map (fun r => [r]) l)
  = Return {| sqlalchemy_result.rows := l |}.
Proof.
  unfold sqlalchemy_result.__init__.
  assert (H : mapM sqlalchemy_result.first_item (map (fun r => [r]) l) = Return l).
  { induction l as [|r l IH]; simpl; [reflexivity|]. rewrite IH. reflexivity. }
  rewrite H. reflexivity.
Qed.

Lemma rows2tuple_records (l : list Token) :
  mapM (fun row => bind (mapM (Token_getattr row) Token_columns) (new Token_columns)) l
  = Return (map Token_record l).
Proof.
  induction l as [|r l IH]; simpl; [reflexivity|].
  simpl in IH. rewrite IH. reflexivity.
Qed.

Lemma rows2tuple_nonempty (r : Token) (l : list Token) :
  sqlalchemy_result.rows2tuple {| sqlalchemy_result.rows := r :: l |}
  = Return (map Token_record (r :: l)).
Proof.
  unfold sqlalchemy_result.rows2tuple.
  cbv beta iota delta [sqlalchemy_result.rows].
  change (namedtuple "Record" Token_columns) with (Return (A:=list string) Token_columns).
  cbv beta iota delta [bind].
  apply rows2tuple_records.
Qed.

(** The [permissions] dictionary holds exactly the entries of the
    registry. *)
Lemma permissions_lookup (row : Token) (p : string) :
  (<["verify_players" := verify_players row]>
     (<["create_token" := create_token row]>
        (<["ban" := verify_ban row]>
           (<["hiscore" := request_highscores row]> (∅ : dict))))) !! p
  = (fun f => f row) <$> registry p.
Proof.
  unfold registry.
  destruct (String.eqb_spec p "hiscore") as [->|H1]; [reflexivity|].
  destruct (String.eqb_spec p "ban") as [->|H2]; [reflexivity|].
  destruct (String.eqb_spec p "create_token") as [->|H3]; [reflexivity|].
  destruct (String.eqb_spec p "verify_players") as [->|H4]; [reflexivity|].
  rewrite !lookup_insert_ne by congruence. apply lookup_empty.
Qed.

(** What [verify_token] computes: the first row of the given token
    decides. *)
Lemma verify_token_first_row (db : list Token) (tok p : string) :
  verify_token db tok p =
  match filter (fun r => token r = tok) db with
  | [] => Raise (PermissionDenied p)
  | row :: _ =>
      if granted (default (VInt 0) ((fun f => f row) <$> registry p))
      then Return true else Raise (PermissionDenied p)
  end.
Proof.
  unfold verify_token, select_Token_where_token.
  rewrite init_of_select. cbv beta iota delta [bind].
  destruct (filter _ db) as [|row l] eqn:Hf; [reflexivity|].
  cbv beta iota delta [sqlalchemy_result.rows length Nat.eqb].
  rewrite rows2tuple_nonempty.
  cbv beta iota delta [map Token_record].
  change (getattr _ "request_highscores") with (Return (request_highscores row)).
  change (getattr _ "verify_ban") with (Return (verify_ban row)).
  change (getattr _ "create_token") with (Return (create_token row)).
  change (getattr _ "verify_players") with (Return (verify_players row)).
  cbv beta iota zeta delta [bind].
  rewrite permissions_lookup. reflexivity.
Qed.

Lemma filter_head_unique (db : list Token) (row : Token) (tok : string) :
  unique_tokens db -> In row db -> token row = tok ->
  exists l, filter (fun r => token r = tok) db = row :: l.
Proof.
  unfold unique_tokens. induction db as [|a db IH]; simpl; intros Hnd Hin Htok.
  - contradiction.
  - apply NoDup_cons in Hnd as [Hnotin Hnd].
    destruct Hin as [->|Hin].
    + rewrite filter_cons_True by assumption. eauto.
    + rewrite filter_cons_False; [apply IH; assumption|].
      intros Ha. apply Hnotin. rewrite Ha, <- Htok.
      apply list_elem_of_fmap_2, list_elem_of_In, Hin.
Qed.

Lemma registry_unknown (p : string) :
  ~ In p registry_names -> registry p = None.
Proof.
  unfold registry, registry_names. simpl. intros H.
  destruct (String.eqb_spec p "hiscore"); [subst; exfalso; apply H; auto 10|].
  destruct (String.eqb_spec p "ban"); [subst; exfalso; apply H; auto 10|].
  destruct (String.eqb_spec p "create_token"); [subst; exfalso; apply H; auto 10|].
  destruct (String.eqb_spec p "verify_players"); [subst; exfalso; apply H; auto 10|].
  reflexivity.
Qed.

Example scenario_ban : verify_token [token_abc] "abc" "ban" = Return true.
Proof. reflexivity. Qed.

Example scenario_hiscore :
  verify_token [token_abc] "abc" "hiscore" = Raise (PermissionDenied "hiscore").
Proof. reflexivity. Qed.

Example scenario_missing :
  verify_token [token_abc] "missing" "ban" = Raise (PermissionDenied "ban").
Proof. reflexivity. Qed.

(** C1. On a token table with at most one row per token, [verify_token]
    returns [True] exactly when some row has the given token and the
    registry resolves the permission to a flag of that row whose value
    equals 1; in every other case it raises the permission-denied error
    that carries the requested permission name. *)
Theorem verify_token_iff (db : list Token) (tok p : string) :
  unique_tokens db ->
  (verify_token db tok p = Return true <->
   exists row field,
     In row db /\ token row = tok /\
     registry p = Some field /\ granted (field row) = true)
  /\ (verify_token db tok p <> Return true ->
      verify_token db tok p = Raise (PermissionDenied p)).
Proof.
  intros Huniq. rewrite verify_token_first_row.
  destruct (filter (fun r => token r = tok) db) as [|row l] eqn:Hf.
  - split; [split|reflexivity].
    + discriminate.
    + intros (row & field & Hin & Htok & _).
      destruct (filter_head_unique db row tok Huniq Hin Htok) as [l' Hl'].
      congruence.
  - assert (Hrow : row ∈ filter (fun r => token r = tok) db)
      by (rewrite Hf; left).
    apply list_elem_of_filter in Hrow as [Htok Hin].
    apply list_elem_of_In in Hin.
    destruct (granted (default (VInt 0) ((fun f => f row) <$> registry p)))
      eqn:Hg.
    + split; [split; [intros _|reflexivity]|congruence].
      destruct (registry p) as [field|]; [|discriminate Hg].
      exists row, field. auto.
    + split; [split; [discriminate|]|reflexivity].
      intros (row' & field & Hin' & Htok' & Hreg & Hgr).
      destruct (filter_head_unique db row' tok Huniq Hin' Htok') as [l' Hl'].
      assert (row' = row) by congruence. subst row'.
      rewrite Hreg in Hg. simpl in Hg. congruence.
Qed.

Lemma verify_token_iff_witness :
  unique_tokens [token_abc; token_xyz] /\
  ((verify_token [token_abc; token_xyz] "xyz" "create_token" = Return true <->
    exists row field,
      In row [token_abc; token_xyz] /\ token row = "xyz" /\
      registry "create_token" = Some field /\ granted (field row) = true)
   /\ (verify_token [token_abc; token_xyz] "xyz" "create_token" <> Return true ->
       verify_token [token_abc; token_xyz] "xyz" "create_token"
       = Raise (PermissionDenied "create_token"))).
Proof.
  assert (H : unique_tokens [token_abc; token_xyz]).
  { unfold unique_tokens. apply (bool_decide_unpack _). vm_compute. exact I. }
  split; [exact H|].
  exact (verify_token_iff [token_abc; token_xyz] "xyz" "create_token" H).
Defined.

(** C2. A permission name outside the registry makes [verify_token] raise
    the permission-denied error, whatever the token table holds; it is the
    error a known permission whose flag is not granted raises. *)
Theorem verify_token_unknown_permission (db : list Token) (tok p : string) :
  ~ In p registry_names ->
  verify_token db tok p = Raise (PermissionDenied p)
  /\ (forall q field,
        registry q = Some field ->
        (forall row, In row db -> granted (field row) = false) ->
        verify_token db tok q = Raise (PermissionDenied q)).
Proof.
  intros Hp. split.
  - rewrite verify_token_first_row, (registry_unknown p Hp).
    destruct (filter _ db); reflexivity.
  - intros q field Hreg Hfalse. rewrite verify_token_first_row, Hreg.
    destruct (filter (fun r => token r = tok) db) as [|row l] eqn:Hf;
      [reflexivity|].
    assert (Hrow : row ∈ filter (fun r => token r = tok) db)
      by (rewrite Hf; left).
    apply list_elem_of_filter in Hrow as [_ Hin].
    apply list_elem_of_In in Hin. simpl. rewrite (Hfalse row Hin). reflexivity.
Qed.

Lemma verify_token_unknown_permission_witness :
  ~ In "verify_ban" registry_names /\
  (verify_token [token_abc] "abc" "verify_ban"
   = Raise (PermissionDenied "verify_ban")
   /\ (forall q field,
         registry q = Some field ->
         (forall row, In row [token_abc] -> granted (field row) = false) ->
         verify_token [token_abc] "abc" q = Raise (PermissionDenied q))).
Proof.
  assert (H : ~ In "verify_ban" registry_names).
  { simpl. intros [H|[H|[H|[H|[]]]]]; discriminate H. }
  split; [exact H|].
  exact (verify_token_unknown_permission [token_abc] "abc" "verify_ban" H).
Defined.

End FunctionsSpec.

(* ===================================================================== *)
(** * Properties of src/api/v2/highscore.py *)
(* ===================================================================== *)

Module HighscoreSpec.
Import Py Functions Spec Samples Highscore.

(** The keyword arguments of the router never bind to the function of
    [api/database/functions.py]: it has no parameter called
    [verification]. *)
Lemma call_rejected (db : list Token) (tok route : string) :
  call_verify_token db [tok]
    [ ("verification", "verify_ban"); ("route", route) ]
  = Raise (TypeError (UnexpectedKeyword "verification")).
Proof. reflexivity. Qed.

(** What the call of the router binds, when it binds at all. *)
Lemma router_call_binds (params : list string) (tok v route : string)
    (b : list (string * string)) :
  bind_args params [tok] [ ("verification", v); ("route", route) ]
  = Return b ->
  exists p0 rest,
    params = p0 :: rest
    /\ b = [ (p0, tok); ("verification", v); ("route", route) ].
Proof.
  unfold bind_args. destruct params as [|p0 rest].
  - discriminate.
  - cbn [combine]. rewrite combine_nil. cbn [bind_keywords].
    destruct (negb (mem_str "verification" (p0 :: rest)));
      [cbn [bind]; discriminate|].
    destruct (bound [(p0, tok)] "verification"); [cbn [bind]; discriminate|].
    destruct (negb (mem_str "route" (p0 :: rest)));
      [cbn [bind]; discriminate|].
    destruct (bound _ "route"); [cbn [bind]; discriminate|].
    cbn [bind app]. destruct (length (p0 :: rest) <? length [tok])%nat;
      [discriminate|].
    destruct (check_missing (p0 :: rest) _); [|cbn [bind]; discriminate].
    cbn [bind]. intros H. injection H as <-. eauto.
Qed.

Lemma verify_ban_unknown : ~ In "verify_ban" registry_names.
Proof. simpl. intros [H|[H|[H|[H|[]]]]]; discriminate H. Qed.

Lemma spec_verify_denies_verify_ban (db : list Token) (tok : string) :
  spec_verify db tok "verify_ban" = Raise (PermissionDenied "verify_ban").
Proof. unfold spec_verify. destruct (filter _ db); reflexivity. Qed.

(** The call of the router to the function of the specification never
    returns. *)
Lemma router_call_fails (params : list string) (permission_param : string)
    (db : list Token) (tok route : string) :
  permission_param <> "route" ->
  nth 0 params "" <> permission_param ->
  exists e,
    spec_verify_token params permission_param db [tok]
      [ ("verification", "verify_ban"); ("route", route) ]
    = Raise e.
Proof.
  intros Hroute Hfirst. unfold spec_verify_token.
  destruct (bind_args params [tok] _) as [b|e] eqn:Hb; [|simpl; eauto].
  apply router_call_binds in Hb as (p0 & rest & -> & ->).
  cbn [bind nth] in *. unfold bound. cbn [List.find fst snd].
  rewrite String.eqb_refl. cbn [fmap option_fmap option_map].
  destruct (String.eqb_spec p0 permission_param) as [Heq|_];
    [contradiction|].
  destruct (String.eqb_spec "verification" permission_param) as [_|_].
  - cbn [fmap option_fmap option_map snd].
    rewrite spec_verify_denies_verify_ban. eauto.
  - destruct (String.eqb_spec "route" permission_param) as [Heq|_];
      [symmetry in Heq; contradiction|].
    cbn [fmap option_fmap option_map]. eauto.
Qed.

Section Router.

Variable Request : Type.
Variable build_route_log_string : Request -> result string.
Variable str : exn -> string.
Variable Response : Type.

Local Abbreviation verify_and_log_token :=
  (Highscore.verify_and_log_token Request build_route_log_string str).
Local Abbreviation endpoint :=
  (Highscore.endpoint Request build_route_log_string str Response).

(** A callee that never returns on the call of the router makes the guard
    raise 403. *)
Lemma guard_403 (verify_token : callee) (request : Request) (tok : string) :
  (forall route, exists e,
     verify_token [tok] [ ("verification", "verify_ban"); ("route", route) ]
     = Raise e) ->
  exists detail,
    verify_and_log_token verify_token request tok
    = Raise (HTTPException 403 detail).
Proof.
  intros Hfail. unfold Highscore.verify_and_log_token.
  destruct (build_route_log_string request) as [route|e]; simpl; [|eauto].
  destruct (Hfail route) as [e ->]. eauto.
Qed.


End Router.


End HighscoreSpec.

(* ===================================================================== *)
(** * Properties of [execute_sql] *)
(* ===================================================================== *)

Module ExecutorSpec.
Import Py Functions Spec Samples.

(** ** The runs of [execute_sql] *)

(** Every run, by what the store answers: the connection fails; the
    statement or the commit fails; all succeed. *)
Lemma execute_sql_run (db : store) (sql : string) (param : option loc)
    (debug : bool) (row_count page : Z) (w : world) :
  let l := default default_param param in
  let hr := has_return sql in
  let d := if hr then paginated (heap w !!! l) row_count page
           else heap w !!! l in
  let h := if hr then <[l := d]> (heap w) else heap w in
  let q := if hr then sql ++ " limit :offset, :row_count" else sql in
  let pre := (trace w ++ debug_lines debug)%list in
  let opened := [Connect (0 <? idle w)%nat; SessionOpen; Execute q d] in
  let closed := [SessionClose; Release] in
  execute_sql db sql param debug row_count page w =
  match on_connect db with
  | Some e =>
      (Raise e,
       {| heap := h; idle := idle w; checked_out := checked_out w;
          trace := pre |})
  | None =>
      match on_execute db q d, on_commit db with
      | Raise e, _ | Return _, Some e =>
          (Raise e,
           {| heap := h; idle := S (Nat.pred (idle w));
              checked_out := checked_out w;
              trace := (pre ++ opened ++ closed)%list |})
      | Return rows, None =>
          (Return (if hr then Some (sql_cursor.__init__ rows) else None),
           {| heap := h; idle := 0%nat; checked_out := checked_out w;
              trace :=
                (pre ++ opened ++ [Commit] ++ closed ++ [Dispose])%list |})
      end
  end.
Proof.
  destruct w as [hp n_idle n_out tr].
  intros l hr d h q pre opened closed.
  unfold execute_sql. fold l. fold hr.
  unfold mbind, with_, session_execute, session_commit, engine_connect,
    connection_release, engine_dispose, mbind, deref, ret, raise, setitem,
    emit, text.
  subst d h q pre opened closed. unfold paginated, debug_lines.
  destruct hr, debug; cbn [heap idle checked_out trace];
    rewrite ?lookup_total_insert_eq, ?insert_insert_eq.
  all: destruct (on_connect db); cbn [heap idle checked_out trace];
    [rewrite ?app_nil_r, <- ?app_assoc; reflexivity|].
  all: rewrite ?lookup_total_insert_eq.
  all: match goal with
       | |- context [on_execute ?s ?a ?b] => destruct (on_execute s a b)
       end.
  all: try match goal with
       | |- context [on_commit ?s] => destruct (on_commit s)
       end.
  all: cbn [heap idle checked_out trace Nat.pred];
    rewrite ?app_nil_r, <- ?app_assoc; reflexivity.
Qed.

(** Rewrite a call of [execute_sql] in the goal to its run. *)
Ltac unfold_run :=
  match goal with
  | |- context [execute_sql ?db ?sql ?param ?debug ?rc ?page ?w] =>
      let H := fresh "Hrun" in
      pose proof (execute_sql_run db sql param debug rc page w) as H;
      cbv zeta in H; rewrite H; clear H
  end.

(** Split a run by the answers of the store. *)
Ltac store_cases db :=
  destruct (on_execute db _ _); [destruct (on_commit db)|].

(** The statements counted as reads. *)
Lemma prefix_app (p s : string) :
  String.prefix p s = true <-> exists rest, s = p ++ rest.
Proof.
  revert s. induction p as [|c p IH]; intros [|c' s]; simpl.
  - split; [exists ""; reflexivity|reflexivity].
  - split; [eauto|reflexivity].
  - split; [discriminate|intros [rest H]; discriminate H].
  - destruct (Ascii.ascii_dec c c') as [->|Hne].
    + rewrite IH. split; intros [rest H]; exists rest.
      * rewrite H. reflexivity.
      * injection H as H. exact H.
    + split; [discriminate|]. intros [rest H]. injection H as H _.
      congruence.
Qed.

Lemma has_return_iff (sql : string) :
  has_return sql = true <-> exists rest, lower (strip sql) = "select" ++ rest.
Proof.
  unfold has_return, startswith. rewrite <- prefix_app.
  destruct (String.prefix _ _); split; congruence.
Qed.

Example has_return_padded : has_return "   SeLeCt 1" = true.
Proof. reflexivity. Qed.

Example has_return_with : has_return "with t as (select 1) select * from t" = false.
Proof. reflexivity. Qed.

(** The mapping object after a run, on every way out. *)
Lemma heap_after (db : store) (sql : string) (param : option loc)
    (debug : bool) (row_count page : Z) (w : world) :
  heap (snd (execute_sql db sql param debug row_count page w)) =
  let l := default default_param param in
  if has_return sql
  then <[l := paginated (heap w !!! l) row_count page]> (heap w)
  else heap w.
Proof.
  unfold_run. cbv zeta.
  destruct (has_return sql); (destruct (on_connect db); [reflexivity|]).
  all: store_cases db; reflexivity.
Qed.

(** Once connected, a run sends one statement, with one mapping. *)
Lemma executed_after (db : store) (sql : string) (param : option loc)
    (debug : bool) (row_count page : Z) (w : world) :
  on_connect db = None ->
  executed (new_events w (snd (execute_sql db sql param debug row_count page w)))
  = let l := default default_param param in
    if has_return sql
    then [(sql ++ " limit :offset, :row_count",
           paginated (heap w !!! l) row_count page)]
    else [(sql, heap w !!! l)].
Proof.
  intros Hc. unfold_run. rewrite Hc. cbv zeta. unfold new_events.
  destruct (has_return sql).
  all: store_cases db; cbn [snd trace];
    rewrite <- app_assoc, drop_app_length; destruct debug; reflexivity.
Qed.

Lemma clamp_row_count (row_count : Z) :
  (if (row_count <=? 100000)%Z then row_count else 100000)
  = Z.min row_count 100000.
Proof. destruct (Z.leb_spec row_count 100000); lia. Qed.

Lemma clamp_page (page : Z) :
  (if (page >=? 1)%Z then page else 1) = Z.max page 1.
Proof. rewrite Z.geb_leb. destruct (Z.leb_spec 1 page); lia. Qed.

Lemma paginated_lookup (d : dict) (row_count page : Z) :
  paginated d row_count page !! "row_count"
  = Some (VInt (Z.min row_count 100000))
  /\ paginated d row_count page !! "offset"
     = Some (VInt ((Z.max page 1 - 1) * Z.min row_count 100000))
  /\ (forall k, k <> "offset" -> k <> "row_count" ->
        paginated d row_count page !! k = d !! k).
Proof.
  unfold paginated. rewrite clamp_row_count, clamp_page.
  split; [apply lookup_insert_eq|]. split.
  - rewrite lookup_insert_ne by discriminate. apply lookup_insert_eq.
  - intros k H1 H2. rewrite !lookup_insert_ne by congruence. reflexivity.
Qed.

(** What a run returns when the statement is not a read. *)
Lemma write_returns (db : store) (sql : string) (param : option loc)
    (debug : bool) (row_count page : Z) (w : world) :
  has_return sql = false ->
  fst (execute_sql db sql param debug row_count page w) =
  match on_connect db with
  | Some e => Raise e
  | None =>
      match on_execute db sql (heap w !!! default default_param param),
            on_commit db with
      | Raise e, _ | Return _, Some e => Raise e
      | Return _, None => Return None
      end
  end.
Proof.
  intros Hw. unfold_run. rewrite Hw.
  destruct (on_connect db); [reflexivity|].
  store_cases db; reflexivity.
Qed.

(** ** Pagination *)

Example scenario_page_two :
  executed (new_events initial_world
    (snd (execute_sql store_ok "select * from scores" None false 5 2
            initial_world)))
  = [("select * from scores limit :offset, :row_count",
      <["row_count" := VInt 5]> (<["offset" := VInt 5]> ∅))].
Proof. rewrite executed_after by reflexivity. reflexivity. Qed.

(** C4. In every read execution the statement is bound to a row limit
    that is the given one when it is at most 100000 and 100000 above that,
    and to the offset (page - 1) * limit for the page taken as 1 when it
    is 0 or less. *)
Theorem pagination_clamped (db : store) (sql : string) (param : option loc)
    (debug : bool) (row_count page : Z) (w : world) :
  has_return sql = true ->
  on_connect db = None ->
  exists d effective_row_count effective_page,
    executed (new_events w
      (snd (execute_sql db sql param debug row_count page w)))
    = [(sql ++ " limit :offset, :row_count", d)]
    /\ d !! "row_count" = Some (VInt effective_row_count)
    /\ d !! "offset"
       = Some (VInt ((effective_page - 1) * effective_row_count))
    /\ (row_count <= 100000 -> effective_row_count = row_count)
    /\ (row_count > 100000 -> effective_row_count = 100000)
    /\ (page >= 1 -> effective_page = page)
    /\ (page <= 0 -> effective_page = 1).
Proof.
  intros Hr Hc.
  exists (paginated (heap w !!! default default_param param) row_count page),
    (Z.min row_count 100000), (Z.max page 1).
  rewrite executed_after by assumption. rewrite Hr. cbv zeta.
  destruct (paginated_lookup (heap w !!! default default_param param)
              row_count page) as (Hrc & Hoff & _).
  repeat split; try assumption; lia.
Qed.

Lemma pagination_clamped_witness :
  has_return "select * from scores" = true /\
  on_connect store_ok = None /\
  exists d effective_row_count effective_page,
    executed (new_events initial_world
      (snd (execute_sql store_ok "select * from scores" None false
              250000 0 initial_world)))
    = [("select * from scores" ++ " limit :offset, :row_count", d)]
    /\ d !! "row_count" = Some (VInt effective_row_count)
    /\ d !! "offset"
       = Some (VInt ((effective_page - 1) * effective_row_count))
    /\ (250000 <= 100000 -> effective_row_count = 250000)
    /\ (250000 > 100000 -> effective_row_count = 100000)
    /\ (0 >= 1 -> effective_page = 0)
    /\ (0 <= 0 -> effective_page = 1).
Proof.
  split; [reflexivity|]. split; [reflexivity|].
  apply (pagination_clamped store_ok "select * from scores" None false
           250000 0 initial_world); reflexivity.
Defined.

(** C9. In a read execution, when the mapping of the caller already has a
    key [offset] or [row_count], the mapping bound to the statement holds
    the computed pagination values under these keys, and the other keys as
    the caller gave them. *)
Theorem reserved_names_overwritten (db : store) (sql : string) (l : loc)
    (debug : bool) (row_count page : Z) (w : world) :
  has_return sql = true ->
  on_connect db = None ->
  is_Some ((heap w !!! l : dict) !! "offset")
  \/ is_Some ((heap w !!! l : dict) !! "row_count") ->
  exists q d,
    executed (new_events w
      (snd (execute_sql db sql (Some l) debug row_count page w)))
    = [(q, d)]
    /\ d !! "offset"
       = Some (VInt ((Z.max page 1 - 1) * Z.min row_count 100000))
    /\ d !! "row_count" = Some (VInt (Z.min row_count 100000))
    /\ (forall k, k <> "offset" -> k <> "row_count" ->
          d !! k = (heap w !!! l : dict) !! k).
Proof.
  intros Hr Hc _.
  exists (sql ++ " limit :offset, :row_count"),
    (paginated (heap w !!! l) row_count page).
  rewrite executed_after by assumption. rewrite Hr. cbv zeta.
  destruct (paginated_lookup (heap w !!! l) row_count page)
    as (Hrc & Hoff & Hother).
  repeat split; assumption.
Qed.

Lemma reserved_names_overwritten_witness :
  has_return "select * from scores" = true /\
  on_connect store_ok = None /\
  (is_Some ((heap world_with_caller !!! caller_loc : dict) !! "offset")
   \/ is_Some ((heap world_with_caller !!! caller_loc : dict) !! "row_count"))
  /\ exists q d,
    executed (new_events world_with_caller
      (snd (execute_sql store_ok "select * from scores" (Some caller_loc)
              false 5 2 world_with_caller)))
    = [(q, d)]
    /\ d !! "offset" = Some (VInt ((Z.max 2 1 - 1) * Z.min 5 100000))
    /\ d !! "row_count" = Some (VInt (Z.min 5 100000))
    /\ (forall k, k <> "offset" -> k <> "row_count" ->
          d !! k = (heap world_with_caller !!! caller_loc : dict) !! k).
Proof.
  assert (H : is_Some ((heap world_with_caller !!! caller_loc : dict) !! "offset")
              \/ is_Some ((heap world_with_caller !!! caller_loc : dict)
                            !! "row_count")).
  { left. exists (VInt 999). vm_compute. reflexivity. }
  split; [reflexivity|]. split; [reflexivity|]. split; [exact H|].
  exact (reserved_names_overwritten store_ok "select * from scores"
           caller_loc false 5 2 world_with_caller eq_refl eq_refl H).
Defined.

(** ** Write statements *)

(** C5. A statement whose stripped, lower-cased text does not start with
    [select] is sent to the store as it is, bound to the mapping as it
    was passed; the call leaves every mapping object as it was, never
    returns a cursor, and returns [None] when the store accepts the
    statement and the commit. *)
Theorem write_statement_untouched (db : store) (sql : string)
    (param : option loc) (debug : bool) (row_count page : Z) (w : world) :
  has_return sql = false ->
  let l := default default_param param in
  let run := execute_sql db sql param debug row_count page w in
  heap (snd run) = heap w
  /\ (on_connect db = None ->
      executed (new_events w (snd run)) = [(sql, heap w !!! l)])
  /\ (forall cursor, fst run <> Return (Some cursor))
  /\ (on_connect db = None ->
      (exists rows, on_execute db sql (heap w !!! l) = Return rows) ->
      on_commit db = None ->
      fst run = Return None).
Proof.
  intros Hw l run. subst run l. split; [|split; [|split]].
  - rewrite heap_after, Hw. reflexivity.
  - intros Hc. rewrite executed_after by assumption. rewrite Hw. reflexivity.
  - intros cursor. rewrite write_returns by assumption.
    destruct (on_connect db); [discriminate|].
    store_cases db; discriminate.
  - intros Hc [rows Hrows] Hcommit.
    rewrite write_returns by assumption. rewrite Hc, Hrows, Hcommit.
    reflexivity.
Qed.

Lemma write_statement_untouched_witness :
  has_return "  INSERT into scores (id) values (:id)" = false /\
  let l := default default_param (Some caller_loc) in
  let run := execute_sql store_ok "  INSERT into scores (id) values (:id)"
               (Some caller_loc) true 5 2 world_with_caller in
  heap (snd run) = heap world_with_caller
  /\ (on_connect store_ok = None ->
      executed (new_events world_with_caller (snd run))
      = [("  INSERT into scores (id) values (:id)",
          heap world_with_caller !!! l)])
  /\ (forall cursor, fst run <> Return (Some cursor))
  /\ (on_connect store_ok = None ->
      (exists rows,
         on_execute store_ok "  INSERT into scores (id) values (:id)"
           (heap world_with_caller !!! l) = Return rows) ->
      on_commit store_ok = None ->
      fst run = Return None).
Proof.
  split; [reflexivity|].
  apply (write_statement_untouched store_ok
           "  INSERT into scores (id) values (:id)" (Some caller_loc) true
           5 2 world_with_caller).
  reflexivity.
Defined.

(** ** The parameter mapping as an object *)

(** C10. A read execution assigns [offset] and [row_count] in the mapping
    object it was given, not in a copy: after the call, on every way out,
    the object holds the two keys.  A call without [param] works on the one
    default object, so the next call without [param] binds the mapping the
    earlier call left there. *)
Theorem param_mutated_in_place (db : store) (sql : string)
    (param : option loc) (debug : bool) (row_count page : Z) (w : world) :
  has_return sql = true ->
  let l := default default_param param in
  let w' := snd (execute_sql db sql param debug row_count page w) in
  exists d' : dict,
    heap w' = <[l := d']> (heap w)
    /\ d' !! "offset"
       = Some (VInt ((Z.max page 1 - 1) * Z.min row_count 100000))
    /\ d' !! "row_count" = Some (VInt (Z.min row_count 100000))
    /\ (forall k, k <> "offset" -> k <> "row_count" ->
          d' !! k = (heap w !!! l : dict) !! k)
    /\ (param = None ->
        l = default_param /\
        forall db2 sql2 debug2 row_count2 page2,
          has_return sql2 = false ->
          on_connect db2 = None ->
          executed (new_events w'
            (snd (execute_sql db2 sql2 None debug2 row_count2 page2 w')))
          = [(sql2, d')]).
Proof.
  intros Hr l w'.
  exists (paginated (heap w !!! l) row_count page).
  assert (Hheap : heap w' = <[l := paginated (heap w !!! l) row_count page]>
                              (heap w)).
  { subst w'. rewrite heap_after, Hr. reflexivity. }
  destruct (paginated_lookup (heap w !!! l) row_count page)
    as (Hrc & Hoff & Hother).
  split; [exact Hheap|]. split; [exact Hoff|]. split; [exact Hrc|].
  split; [exact Hother|].
  intros Hnone. subst param. split; [reflexivity|].
  intros db2 sql2 debug2 row_count2 page2 Hw2 Hc2.
  rewrite executed_after by assumption. rewrite Hw2. cbv zeta.
  rewrite Hheap. subst l. cbn [default].
  rewrite lookup_total_insert_eq. reflexivity.
Qed.

Lemma param_mutated_in_place_witness :
  has_return "select * from scores" = true /\
  let l := default default_param None in
  let w' := snd (execute_sql store_rejecting "select * from scores" None
                   false 5 2 initial_world) in
  exists d' : dict,
    heap w' = <[l := d']> (heap initial_world)
    /\ d' !! "offset" = Some (VInt ((Z.max 2 1 - 1) * Z.min 5 100000))
    /\ d' !! "row_count" = Some (VInt (Z.min 5 100000))
    /\ (forall k, k <> "offset" -> k <> "row_count" ->
          d' !! k = (heap initial_world !!! l : dict) !! k)
    /\ (@None loc = None ->
        l = default_param /\
        forall db2 sql2 debug2 row_count2 page2,
          has_return sql2 = false ->
          on_connect db2 = None ->
          executed (new_events w'
            (snd (execute_sql db2 sql2 None debug2 row_count2 page2 w')))
          = [(sql2, d')]).
Proof.
  split; [reflexivity|].
  apply (param_mutated_in_place store_rejecting "select * from scores" None
           false 5 2 initial_world).
  reflexivity.
Defined.

(** A write that follows a read, both without [param]: the insert is
    bound to the pagination values of the read. *)
Example default_param_leaks :
  let w' := snd (execute_sql store_ok "select * from scores" None false 5 2
                   initial_world) in
  executed (new_events w'
    (snd (execute_sql store_ok "insert into scores values (1)" None false
            100000 1 w')))
  = [("insert into scores values (1)",
      <["row_count" := VInt 5]> (<["offset" := VInt 5]> ∅))].
Proof.
  cbv zeta. rewrite executed_after by reflexivity.
  rewrite heap_after. reflexivity.
Qed.

(** ** Release of the connection and disposal of the pool *)

(** Leaving the connection block releases the connection on every way
    out. *)
Lemma release_on_every_exit (db : store) (sql : string) (param : option loc)
    (debug : bool) (row_count page : Z) (w : world) :
  on_connect db = None ->
  let w' := snd (execute_sql db sql param debug row_count page w) in
  In Release (new_events w w') /\ checked_out w' = checked_out w.
Proof.
  intros Hc. cbv zeta. unfold_run. rewrite Hc. unfold new_events.
  store_cases db;
    cbn [snd trace checked_out]; rewrite <- app_assoc, drop_app_length;
    (split; [|reflexivity]); rewrite !in_app_iff; simpl; tauto.
Qed.

(** When the call returns, the pool has been disposed of. *)
Lemma dispose_on_return (db : store) (sql : string) (param : option loc)
    (debug : bool) (row_count page : Z) (w : world) (r : option sql_cursor.t) :
  let run := execute_sql db sql param debug row_count page w in
  fst run = Return r ->
  In Dispose (new_events w (snd run)) /\ idle (snd run) = 0%nat.
Proof.
  cbv zeta. unfold_run. unfold new_events.
  destruct (on_connect db); [discriminate|].
  store_cases db; cbn [fst]; try discriminate.
  intros _. cbn [snd trace idle]. rewrite <- app_assoc, drop_app_length.
  split; [|reflexivity]. rewrite !in_app_iff. simpl. tauto.
Qed.

(** When the call raises, [engine.dispose()] has not run, and a released
    connection stays in the pool. *)
Lemma no_dispose_on_raise (db : store) (sql : string) (param : option loc)
    (debug : bool) (row_count page : Z) (w : world) (e : exn) :
  let run := execute_sql db sql param debug row_count page w in
  fst run = Raise e ->
  ~ In Dispose (new_events w (snd run))
  /\ (on_connect db = None -> idle (snd run) = S (Nat.pred (idle w))).
Proof.
  cbv zeta. unfold_run. unfold new_events.
  destruct (on_connect db).
  - intros _. cbn [snd trace]. rewrite drop_app_length.
    split; [|discriminate]. destruct debug; simpl; intuition discriminate.
  - store_cases db; cbn [fst]; try discriminate.
    all: intros _; cbn [snd trace idle];
      rewrite <- app_assoc, drop_app_length; (split; [|reflexivity]);
      rewrite !in_app_iff; destruct debug; simpl; intuition discriminate.
Qed.

(** C6, at a statement the store rejects: the call raises the error of
    the store, the connection has been released, and [engine.dispose()]
    has not run: the connection is still in the pool, and the next call
    is handed this very connection. *)
Theorem dispose_skipped_on_error :
  let run1 := execute_sql store_rejecting "select * from" None false
                100000 1 initial_world in
  let run2 := execute_sql store_ok "select 1" None false 100000 1
                (snd run1) in
  fst run1 = Raise (DBAPIError "You have an error in your SQL syntax")
  /\ In Release (trace (snd run1))
  /\ ~ In Dispose (trace (snd run1))
  /\ idle (snd run1) = 1%nat
  /\ In (Connect true) (new_events (snd run1) (snd run2)).
Proof.
  cbv zeta. unfold_run.
  change (on_connect store_rejecting) with (@None exn).
  cbn [on_execute store_rejecting fst snd trace idle initial_world].
  split; [reflexivity|]. split; [simpl; tauto|].
  split; [simpl; intuition discriminate|]. split; [reflexivity|].
  unfold_run.
  change (on_connect store_ok) with (@None exn).
  cbn [on_execute on_commit store_ok snd trace idle].
  unfold new_events. cbn [trace]. rewrite drop_app_length.
  simpl. tauto.
Qed.

End ExecutorSpec.

(* ===================================================================== *)
(** * Properties of the result wrappers *)
(* ===================================================================== *)

Module CursorSpec.
Import Py Functions Spec Samples.

(** ** Records of a result without rows *)

(** C7. Requesting the records of a result without rows and without
    columns fails, and the error is the outcome of the call, for every
    continuation of the caller.  For the rows of an ORM query, which
    carry their columns themselves, this is the result without rows:
    [rows2tuple] raises [IndexError].  For the result of a textual
    statement it is the result without a description, that of a
    statement that returned no rows: [rows2tuple] raises
    [ResourceClosedError] and leaves the cursor as it was. *)
Theorem rows2tuple_empty_raises :
  sqlalchemy_result.rows2tuple {| sqlalchemy_result.rows := [] |}
  = Raise IndexError
  /\ (forall (A : Type) (k : list record -> result A),
        bind (sqlalchemy_result.rows2tuple {| sqlalchemy_result.rows := [] |})
          k
        = Raise IndexError)
  /\ (forall unread,
        let cursor :=
          sql_cursor.__init__ {| description := None; pending := unread |} in
        sql_cursor.rows2tuple cursor = (Raise ResourceClosedError, cursor)
        /\ forall (A : Type) (k : list record -> result A),
             bind (fst (sql_cursor.rows2tuple cursor)) k
             = Raise ResourceClosedError).
Proof. repeat split. Qed.

Example rows2tuple_no_rows_sample :
  fst (sql_cursor.rows2tuple (sql_cursor.__init__ result_no_rows))
  = Raise ResourceClosedError.
Proof. reflexivity. Qed.

(** ** What [namedtuple] accepts *)

Lemma mem_str_In (x : string) (l : list string) :
  mem_str x l = true <-> In x l.
Proof.
  unfold mem_str. rewrite existsb_exists. split.
  - intros (y & Hy & Heq). apply String.eqb_eq in Heq. congruence.
  - intros H. exists x. split; [assumption|apply String.eqb_refl].
Qed.

Lemma check_names_ok (names : list string) :
  Forall field_name_ok names -> check_names names = Return tt.
Proof.
  induction 1 as [|name names (Hid & Hkw & _) _ IH]; simpl; [reflexivity|].
  rewrite Hid, Hkw. exact IH.
Qed.

Lemma check_fields_ok (names seen : list string) :
  Forall field_name_ok names -> NoDup names ->
  (forall x, In x names -> ~ In x seen) ->
  check_fields seen names = Return tt.
Proof.
  intros Hok. revert seen.
  induction Hok as [|name names (_ & _ & Hus) _ IH]; intros seen Hnd Hseen;
    simpl; [reflexivity|].
  apply NoDup_cons in Hnd as [Hnotin Hnd].
  rewrite Hus.
  destruct (mem_str name seen) eqn:Hmem.
  - apply mem_str_In in Hmem. exfalso. apply (Hseen name); simpl; auto.
  - apply IH; [assumption|]. intros x Hx [Heq|Hin].
    + subst x. apply Hnotin, list_elem_of_In, Hx.
    + apply (Hseen x); simpl; auto.
Qed.

Lemma nfkc_char_underscore (c : ascii) :
  nfkc_char c = "_"%char -> c = "_"%char.
Proof.
  unfold nfkc_char.
  destruct (ord c =? 170)%N; [discriminate|].
  destruct (ord c =? 186)%N; [discriminate|]. auto.
Qed.

Lemma nfkc_not_cls (name : string) :
  startswith name "_" = false -> nfkc name <> "_cls".
Proof.
  unfold startswith. destruct name as [|c name]; simpl; [discriminate|].
  destruct (ascii_dec "_" c) as [<-|Hne]; [destruct name; discriminate|].
  intros _ H. injection H as Hc _. apply nfkc_char_underscore in Hc.
  congruence.
Qed.

Lemma check_arguments_ok (names seen : list string) :
  NoDup (map nfkc names) ->
  (forall x, In x names -> ~ In (nfkc x) seen) ->
  check_arguments seen names = Return tt.
Proof.
  revert seen. induction names as [|name names IH]; intros seen Hnd Hseen;
    simpl; [reflexivity|].
  simpl in Hnd. apply NoDup_cons in Hnd as [Hnotin Hnd].
  destruct (mem_str (nfkc name) seen) eqn:Hmem.
  - apply mem_str_In in Hmem. exfalso. apply (Hseen name); simpl; auto.
  - apply IH; [assumption|]. intros x Hx [Heq|Hin].
    + apply Hnotin. rewrite Heq. apply list_elem_of_In, in_map, Hx.
    + apply (Hseen x); simpl; auto.
Qed.

Lemma namedtuple_accepts (names : list string) :
  Forall field_name_ok names -> NoDup (map nfkc names) ->
  namedtuple "Record" names = Return names.
Proof.
  intros Hok Hnd. unfold namedtuple.
  change (check_names ("Record" :: names)) with (check_names names).
  rewrite (check_names_ok names Hok). cbv beta iota delta [bind].
  rewrite (check_fields_ok names [] Hok); cycle 1.
  { exact (NoDup_fmap_1 nfkc names Hnd). }
  { intros x _ []. }
  rewrite (check_arguments_ok names ["_cls"] Hnd); [reflexivity|].
  intros x Hx [Heq|[]]. rewrite Forall_forall in Hok.
  destruct (Hok x (proj2 (list_elem_of_In _ _) Hx)) as (_ & _ & Hus).
  exact (nfkc_not_cls x Hus (eq_sym Heq)).
Qed.

(** ** Mappings and records of the same result *)

Lemma mapping_get_absent (columns : list string) (row : list value)
    (col : string) :
  ~ In col columns -> mapping_get (combine columns row) col = None.
Proof.
  revert row. induction columns as [|k columns IH]; intros [|v row] Hnotin;
    simpl; try reflexivity.
  rewrite IH by (intros H; apply Hnotin; right; exact H).
  destruct (String.eqb_spec k col) as [->|_]; [|reflexivity].
  exfalso. apply Hnotin. left. reflexivity.
Qed.

Lemma mapping_get_combine (columns : list string) (row : list value)
    (col : string) :
  NoDup columns ->
  mapping_get (combine columns row) col = field_lookup columns row col.
Proof.
  intros Hnd. revert row.
  induction columns as [|k columns IH]; intros [|v row]; simpl;
    try reflexivity.
  apply NoDup_cons in Hnd as [Hnotin Hnd].
  destruct (String.eqb_spec k col) as [->|_].
  - rewrite mapping_get_absent; [reflexivity|].
    intros H. apply Hnotin, list_elem_of_In, H.
  - rewrite (IH Hnd). destruct (field_lookup columns row col); reflexivity.
Qed.

Lemma field_lookup_In (columns : list string) (row : list value)
    (col : string) :
  In col columns -> length row = length columns ->
  exists v, field_lookup columns row col = Some v.
Proof.
  revert row. induction columns as [|k columns IH]; intros [|v row] Hin Hlen;
    simpl in *; try contradiction; try discriminate.
  destruct (String.eqb_spec k col) as [_|Hne]; [eauto|].
  apply IH; [|congruence]. destruct Hin; [contradiction|assumption].
Qed.

Lemma mapM_new (columns : list string) (rows : list (list value)) :
  Forall (fun row => length row = length columns) rows ->
  mapM (new columns) rows
  = Return (map (fun row => {| _fields := columns; items := row |}) rows).
Proof.
  induction 1 as [|row rows Hlen _ IH]; simpl; [reflexivity|].
  unfold new at 1. rewrite Hlen, Nat.eqb_refl. simpl. rewrite IH. reflexivity.
Qed.

(** C8, as stated, fails: the column of an aggregate query is named by
    the aggregate expression, which the mappings hold as a key and
    [namedtuple] refuses as a field name. *)
Lemma record_form_refuses_column :
  fst (sql_cursor.rows2dict (sql_cursor.__init__ result_max))
  = Return [[("max(score)", VInt 3)]]
  /\ fst (sql_cursor.rows2tuple (sql_cursor.__init__ result_max))
     = Raise (ValueError (NotIdentifier "max(score)"))
  /\ ~ same_values result_max.
Proof.
  split; [reflexivity|]. split; [reflexivity|].
  intros (columns & ds & ts & _ & _ & Hts & _). discriminate Hts.
Qed.

(** C8, amended. For an unread result whose column names [namedtuple]
    takes as field names (identifiers that are no keywords, do not start
    with an underscore and are distinct in the normal form the parser
    gives them) and whose rows have one value per column, the mappings
    and the records are made one per row, and each row holds the same
    value under every column name in both forms. *)
Theorem materializations_agree (c : CursorResult) (columns : list string) :
  description c = Some columns ->
  Forall field_name_ok columns ->
  NoDup (map nfkc columns) ->
  Forall (fun row => length row = length columns) (pending c) ->
  same_values c.
Proof.
  intros Hd Hok Hnd Hrows.
  exists columns, (map (combine columns) (pending c)),
    (map (fun row => {| _fields := columns; items := row |}) (pending c)).
  unfold sql_cursor.rows2dict, sql_cursor.rows2tuple, sql_cursor.__init__,
    mappings_all, fetchall, keys.
  cbn [sql_cursor.rows]. rewrite Hd. cbn [bind fst].
  rewrite (namedtuple_accepts columns Hok Hnd). cbn [bind fst].
  rewrite (mapM_new columns (pending c) Hrows).
  split; [reflexivity|]. split; [reflexivity|]. split; [reflexivity|].
  split; [apply length_map|].
  pose proof (NoDup_fmap_1 nfkc columns Hnd) as Hraw.
  induction Hrows as [|row rows Hlen _ IH]; simpl; constructor; [|exact IH].
  intros col Hin.
  destruct (field_lookup_In columns row col Hin Hlen) as [v Hv].
  exists v. rewrite (mapping_get_combine columns row col Hraw).
  unfold getattr. simpl. rewrite Hv. auto.
Qed.

Lemma materializations_agree_witness :
  description result_scores = Some ["id"; "score"] /\
  Forall field_name_ok ["id"; "score"] /\
  NoDup (map nfkc ["id"; "score"]) /\
  Forall (fun row => length row = length ["id"; "score"])
    (pending result_scores) /\
  same_values result_scores.
Proof.
  assert (H1 : Forall field_name_ok ["id"; "score"]).
  { repeat constructor. }
  assert (H2 : NoDup (map nfkc ["id"; "score"])).
  { apply (bool_decide_unpack _). vm_compute. exact I. }
  assert (H3 : Forall (fun row => length row = length ["id"; "score"])
                 (pending result_scores)).
  { repeat constructor. }
  split; [reflexivity|]. split; [exact H1|]. split; [exact H2|].
  split; [exact H3|].
  exact (materializations_agree result_scores ["id"; "score"] eq_refl H1 H2 H3).
Defined.

(** Two column names with one normal form: the class cannot be made. *)
Example ordinal_indicator_clash :
  namedtuple "Record" [String (ascii_of_N 170) ""; "a"]
  = Raise (SyntaxError "a").
Proof. reflexivity. Qed.

(** Materializing consumes the rows: records asked of a cursor whose
    mappings were taken already are none. *)
Lemma second_materialization_empty (c : CursorResult) (columns : list string) :
  description c = Some columns ->
  Forall field_name_ok columns ->
  NoDup (map nfkc columns) ->
  fst (sql_cursor.rows2tuple
         (snd (sql_cursor.rows2dict (sql_cursor.__init__ c))))
  = Return [].
Proof.
  intros Hd Hok Hnd.
  unfold sql_cursor.rows2dict, sql_cursor.rows2tuple, sql_cursor.__init__,
    mappings_all, fetchall, keys, exhausted.
  cbn [sql_cursor.rows]. rewrite Hd. cbn [snd sql_cursor.rows description bind].
  rewrite (namedtuple_accepts columns Hok Hnd). reflexivity.
Qed.

End CursorSpec.

(* ===================================================================== *)
(** * Properties of [list_to_string] *)
(* ===================================================================== *)

Module JoinSpec.
Import Py Functions Spec Samples.

Lemma append_assoc (s t u : string) : (s ++ t) ++ u = s ++ (t ++ u).
Proof.
  induction s as [|c s IH]; [reflexivity|].
  change (String c ((s ++ t) ++ u) = String c (s ++ t ++ u)).
  f_equal. exact IH.
Qed.

Lemma join_app (sep : string) (l1 l2 : list string) :
  l1 <> [] -> l2 <> [] ->
  join sep (l1 ++ l2) = join sep l1 ++ sep ++ join sep l2.
Proof.
  intros H1 H2. induction l1 as [|a l1 IH]; [contradiction|].
  destruct l1 as [|b l1].
  - destruct l2; [contradiction|reflexivity].
  - change (join sep ((a :: b :: l1) ++ l2))
      with (a ++ sep ++ join sep ((b :: l1) ++ l2)).
    rewrite IH by discriminate.
    change (join sep (a :: b :: l1)) with (a ++ sep ++ join sep (b :: l1)).
    rewrite !append_assoc. reflexivity.
Qed.

(** X1. Joining a list cut in two non-empty parts is joining the parts
    and putting one separator between them. *)
Theorem list_to_string_app (l1 l2 : list value) :
  l1 <> [] -> l2 <> [] ->
  list_to_string (l1 ++ l2)
  = list_to_string l1 ++ ", " ++ list_to_string l2.
Proof.
  intros H1 H2. unfold list_to_string. cbv zeta. rewrite map_app.
  apply join_app; intros H; apply map_eq_nil in H; contradiction.
Qed.

Lemma list_to_string_app_witness :
  [VInt 1; VStr "a"] <> [] /\ [VNone; VBool true] <> [] /\
  list_to_string ([VInt 1; VStr "a"] ++ [VNone; VBool true])
  = list_to_string [VInt 1; VStr "a"] ++ ", "
    ++ list_to_string [VNone; VBool true].
Proof.
  assert (H1 : [VInt 1; VStr "a"] <> []) by discriminate.
  assert (H2 : [VNone; VBool true] <> []) by discriminate.
  split; [exact H1|]. split; [exact H2|].
  exact (list_to_string_app [VInt 1; VStr "a"] [VNone; VBool true] H1 H2).
Defined.

Lemma join_flatten (sep : string) (a b c : list string) :
  b <> [] ->
  join sep (a ++ join sep b :: c) = join sep (a ++ b ++ c).
Proof.
  intros Hb.
  assert (Hbc : join sep (join sep b :: c) = join sep (b ++ c)).
  { destruct c as [|x c]; [rewrite app_nil_r; reflexivity|].
    rewrite (join_app sep b (x :: c)) by (assumption || discriminate).
    reflexivity. }
  destruct a as [|y a]; [exact Hbc|].
  rewrite (join_app sep (y :: a) (join sep b :: c)) by discriminate.
  rewrite (join_app sep (y :: a) (b ++ c)); [rewrite Hbc; reflexivity| |].
  - discriminate.
  - intros H. apply app_eq_nil in H as [H _]. contradiction.
Qed.

(** X2. Text items are joined as they are, without quotes or escapes, so
    a joined text put back as one item cannot be told from its items: a
    list that holds the text of a non-empty list as one item gives the
    same text as the list with these items in its place. *)
Theorem list_to_string_flattens (l1 l2 l3 : list value) :
  l2 <> [] ->
  list_to_string (l1 ++ VStr (list_to_string l2) :: l3)
  = list_to_string (l1 ++ l2 ++ l3).
Proof.
  intros H2. unfold list_to_string. cbv zeta.
  rewrite !map_app. cbn [map str].
  apply join_flatten. intros H. apply map_eq_nil in H. contradiction.
Qed.

Lemma list_to_string_flattens_witness :
  [VStr "a"; VInt 2] <> [] /\
  list_to_string ([VInt 1] ++ VStr (list_to_string [VStr "a"; VInt 2])
                    :: [VNone])
  = list_to_string ([VInt 1] ++ [VStr "a"; VInt 2] ++ [VNone]).
Proof.
  assert (H : [VStr "a"; VInt 2] <> []) by discriminate.
  split; [exact H|].
  exact (list_to_string_flattens [VInt 1] [VStr "a"; VInt 2] [VNone] H).
Defined.

(** The decimal text of an integer. *)
Lemma uint_comma_free (d : Decimal.uint) :
  comma_free (NilEmpty.string_of_uint d).
Proof. unfold comma_free. induction d; simpl; auto. Qed.

Lemma str_int_comma_free (n : Z) : comma_free (str (VInt n)).
Proof.
  unfold comma_free, str, NilZero.string_of_int, NilZero.string_of_uint.
  destruct (Z.to_int n) as [d|d]; destruct d; simpl; try reflexivity;
    apply (uint_comma_free d).
Qed.

Lemma to_int_not_nil (n : Z) :
  Z.to_int n <> Decimal.Pos Decimal.Nil /\ Z.to_int n <> Decimal.Neg Decimal.Nil.
Proof.
  destruct n as [|p|p]; simpl; split; try discriminate;
    intros H; injection H as H; revert H; apply DecimalPos.Unsigned.to_uint_nonnil.
Qed.

Lemma str_int_inj (n m : Z) : str (VInt n) = str (VInt m) -> n = m.
Proof.
  simpl. intros H.
  destruct (to_int_not_nil n) as [Hn1 Hn2], (to_int_not_nil m) as [Hm1 Hm2].
  pose proof (NilZero.isi (Z.to_int n) Hn1 Hn2) as En.
  pose proof (NilZero.isi (Z.to_int m) Hm1 Hm2) as Em.
  rewrite H, Em in En. injection En as En.
  rewrite <- (DecimalZ.of_to n), <- (DecimalZ.of_to m), En. reflexivity.
Qed.

Lemma str_int_nonempty (n : Z) : str (VInt n) <> "".
Proof.
  simpl. intros H. destruct (to_int_not_nil n) as [Hn1 Hn2].
  pose proof (NilZero.isi (Z.to_int n) Hn1 Hn2) as En.
  rewrite H in En. discriminate En.
Qed.

Lemma comma_split (s1 s2 t1 t2 : string) :
  comma_free s1 -> comma_free s2 ->
  s1 ++ String "," t1 = s2 ++ String "," t2 -> s1 = s2 /\ t1 = t2.
Proof.
  unfold comma_free. revert s2.
  induction s1 as [|c s1 IH]; intros [|c' s2]; simpl; intros H1 H2 H.
  - injection H as H. auto.
  - injection H as Hc H. subst c'. simpl in H2. discriminate H2.
  - injection H as Hc H. subst c. simpl in H1. discriminate H1.
  - injection H as Hc H. subst c'.
    apply andb_prop in H1 as [_ H1]. apply andb_prop in H2 as [_ H2].
    destruct (IH s2 H1 H2 H) as [-> ->]. auto.
Qed.

Lemma comma_absent (s t u : string) :
  comma_free s -> comma_free t -> s <> t ++ String "," u.
Proof.
  unfold comma_free. revert t.
  induction s as [|c s IH]; intros [|c' t]; simpl; intros H1 H2 H;
    try discriminate H.
  - injection H as Hc H. subst c. discriminate H1.
  - injection H as Hc H. subst c'.
    apply andb_prop in H1 as [_ H1]. apply andb_prop in H2 as [_ H2].
    exact (IH t H1 H2 H).
Qed.

Lemma append_empty (s t : string) : s ++ t = "" -> s = "".
Proof. destruct s; [reflexivity|discriminate]. Qed.

Lemma join_ints (x y : Z) (l : list Z) :
  join ", " (map str (map VInt (x :: y :: l)))
  = str (VInt x) ++ String "," (String " " (join ", " (map str (map VInt (y :: l))))).
Proof. reflexivity. Qed.

(** X3. On lists of integers the joined text determines the list. *)
Theorem list_to_string_ints_injective (l1 l2 : list Z) :
  list_to_string (map VInt l1) = list_to_string (map VInt l2) -> l1 = l2.
Proof.
  unfold list_to_string. cbv zeta. revert l2.
  induction l1 as [|x l1 IH]; intros [|y l2].
  - reflexivity.
  - intros H. exfalso. apply (str_int_nonempty y). symmetry in H.
    destruct l2 as [|y2 l2]; [exact H|].
    rewrite join_ints in H. exact (append_empty _ _ H).
  - intros H. exfalso. apply (str_int_nonempty x).
    destruct l1 as [|x2 l1]; [exact H|].
    rewrite join_ints in H. exact (append_empty _ _ H).
  - destruct l1 as [|x2 l1], l2 as [|y2 l2]; rewrite ?join_ints; intros H.
    + apply str_int_inj in H. congruence.
    + exfalso.
      exact (comma_absent _ _ _ (str_int_comma_free x) (str_int_comma_free y) H).
    + exfalso. symmetry in H.
      exact (comma_absent _ _ _ (str_int_comma_free y) (str_int_comma_free x) H).
    + apply comma_split in H as [Hxy Ht];
        [|apply str_int_comma_free|apply str_int_comma_free].
      injection Ht as Ht. apply str_int_inj in Hxy.
      pose proof (IH (y2 :: l2) Ht) as Hl. congruence.
Qed.

Lemma list_to_string_ints_injective_witness :
  list_to_string (map VInt [12; -3; 0]) = list_to_string (map VInt [12; -3; 0])
  /\ [12; -3; 0] = [12; -3; 0].
Proof.
  split; [reflexivity|].
  apply (list_to_string_ints_injective [12; -3; 0] [12; -3; 0]). reflexivity.
Defined.

Example list_to_string_sample :
  list_to_string [VInt 12; VInt (-3); VStr "a b"; VNone; VBool false]
  = "12, -3, a b, None, False".
Proof. reflexivity. Qed.

End JoinSpec.

(* ===================================================================== *)
(** * Properties of [sqlalchemy_result] *)
(* ===================================================================== *)

Module ResultRowsSpec.
Import Py Functions Spec Samples.

Lemma first_items (rows : list (Token * list Token)) :
  mapM sqlalchemy_result.first_item (map (fun r => fst r :: snd r) rows)
  = Return (map fst rows).
Proof.
  induction rows as [|r rows IH]; simpl; [reflexivity|].
  simpl in IH. rewrite IH. reflexivity.
Qed.

Lemma first_item_error (rows : list (list Token)) (e : exn) :
  mapM sqlalchemy_result.first_item rows = Raise e -> e = IndexError.
Proof.
  induction rows as [|[|x r] rows IH]; simpl.
  - discriminate.
  - congruence.
  - destruct (mapM sqlalchemy_result.first_item rows); simpl;
      [discriminate|]. intros H. injection H as <-. apply IH. reflexivity.
Qed.

(** X4. The wrapper keeps the first item of every result row, in order,
    whatever else the row holds; a row without items makes the
    construction raise [IndexError], and no other error can arise. *)
Theorem init_keeps_first_items (rows : list (Token * list Token))
    (before after : list (list Token)) :
  sqlalchemy_result.__init__ (map (fun r => fst r :: snd r) rows)
  = Return {| sqlalchemy_result.rows := map fst rows |}
  /\ sqlalchemy_result.__init__ (before ++ [] :: after) = Raise IndexError.
Proof.
  unfold sqlalchemy_result.__init__. split.
  - rewrite first_items. reflexivity.
  - destruct (mapM sqlalchemy_result.first_item (before ++ [] :: after)%list)
      as [l|e] eqn:H.
    + exfalso. revert l H.
      induction before as [|[|x r] before IH]; simpl; intros l H.
      * discriminate H.
      * discriminate H.
      * destruct (mapM sqlalchemy_result.first_item (before ++ [] :: after)%list)
          as [l'|e'] eqn:H'; [exact (IH l' eq_refl)|discriminate H].
    + simpl. rewrite (first_item_error _ e H). reflexivity.
Qed.

(** The dictionary made of one row of the token table. *)
Lemma row_dict (row : Token) :
  bind (mapM (fun col => bind (Token_getattr row col)
                              (fun v => Return (col, v)))
             Token_columns)
       (fun kvs => Return (list_to_map kvs : dict))
  = Return (<["token" := VStr (token row)]>
              (<["request_highscores" := request_highscores row]>
                 (<["verify_ban" := verify_ban row]>
                    (<["create_token" := create_token row]>
                       (<["verify_players" := verify_players row]> ∅))))).
Proof. reflexivity. Qed.

Lemma row_dict_lookup (row : Token) (col : string) :
  (<["token" := VStr (token row)]>
     (<["request_highscores" := request_highscores row]>
        (<["verify_ban" := verify_ban row]>
           (<["create_token" := create_token row]>
              (<["verify_players" := verify_players row]> (∅ : dict)))))) !! col
  = match Token_getattr row col with
    | Return v => Some v
    | Raise _ => None
    end.
Proof.
  unfold Token_getattr.
  destruct (String.eqb_spec col "token") as [->|H1]; [reflexivity|].
  destruct (String.eqb_spec col "request_highscores") as [->|H2];
    [reflexivity|].
  destruct (String.eqb_spec col "verify_ban") as [->|H3]; [reflexivity|].
  destruct (String.eqb_spec col "create_token") as [->|H4]; [reflexivity|].
  destruct (String.eqb_spec col "verify_players") as [->|H5]; [reflexivity|].
  rewrite !lookup_insert_ne by congruence. apply lookup_empty.
Qed.

Lemma rows2dict_cons (row : Token) (rows : list Token) (ds : list dict) :
  sqlalchemy_result.rows2dict {| sqlalchemy_result.rows := rows |} = Return ds ->
  exists d,
    sqlalchemy_result.rows2dict {| sqlalchemy_result.rows := row :: rows |}
    = Return (d :: ds)
    /\ forall col, d !! col = match Token_getattr row col with
                              | Return v => Some v
                              | Raise _ => None
                              end.
Proof.
  unfold sqlalchemy_result.rows2dict. cbn [sqlalchemy_result.rows mapM].
  intros H. rewrite row_dict. cbn [bind]. rewrite H. cbn [bind].
  eexists. split; [reflexivity|]. apply row_dict_lookup.
Qed.

(** X5. [rows2dict] never raises: it returns one dictionary per row, in
    order, and the dictionary of a row holds the attribute of the row
    under every column name of the table and nothing under any other
    key. *)
Theorem orm_rows2dict_total (self : sqlalchemy_result.t) :
  exists ds,
    sqlalchemy_result.rows2dict self = Return ds
    /\ Forall2 (fun row (d : dict) =>
                  forall col, d !! col = match Token_getattr row col with
                                         | Return v => Some v
                                         | Raise _ => None
                                         end)
               (sqlalchemy_result.rows self) ds.
Proof.
  destruct self as [rows]. cbn [sqlalchemy_result.rows].
  induction rows as [|row rows (ds & Hds & Hall)].
  - exists []. split; [reflexivity|constructor].
  - destruct (rows2dict_cons row rows ds Hds) as (d & Hd & Hcol).
    exists (d :: ds). split; [exact Hd|]. constructor; assumption.
Qed.

(** X6. On the rows of the token table the records exist exactly when
    there is a row: without rows [rows2tuple] raises [IndexError] while
    [rows2dict] returns the empty list; with rows, both return one entry
    per row and the two forms of a row hold the same value under every
    column name. *)
Theorem orm_forms_agree (self : sqlalchemy_result.t) :
  exists ds,
    sqlalchemy_result.rows2dict self = Return ds
    /\ match sqlalchemy_result.rows self with
       | [] => ds = [] /\ sqlalchemy_result.rows2tuple self = Raise IndexError
       | _ :: _ =>
           exists ts,
             sqlalchemy_result.rows2tuple self = Return ts
             /\ Forall2 (fun (d : dict) t =>
                           forall col, In col Token_columns ->
                             exists v, d !! col = Some v
                                       /\ getattr t col = Return v)
                        ds ts
       end.
Proof.
  destruct (orm_rows2dict_total self) as (ds & Hds & Hall).
  exists ds. split; [exact Hds|].
  destruct self as [rows]. cbn [sqlalchemy_result.rows] in *.
  destruct rows as [|row rows].
  - inversion Hall. split; reflexivity.
  - exists (map Token_record (row :: rows)).
    split; [apply FunctionsSpec.rows2tuple_nonempty|].
    revert Hall. generalize (row :: rows) as l. clear row rows Hds.
    intros l Hall. induction Hall as [|r d l ds Hd _ IH]; simpl;
      constructor; [|exact IH].
    intros col Hin. rewrite Hd.
    simpl in Hin.
    destruct Hin as [<-|[<-|[<-|[<-|[<-|[]]]]]]; eexists; split; reflexivity.
Qed.

End ResultRowsSpec.

(* ===================================================================== *)
(** * Further properties of [verify_token] *)
(* ===================================================================== *)

Module VerifySpec.
Import Py Functions Spec Samples.

(** X7. Whatever the token table holds, [verify_token] either returns
    [True] or raises [HTTPException] with status 404 and the requested
    permission name in the detail: it never returns [False] and raises no
    other exception. *)
Theorem verify_token_two_outcomes (db : list Token) (tok p : string) :
  verify_token db tok p = Return true
  \/ verify_token db tok p
     = Raise (HTTPException 404 ("insufficient permissions: " ++ p)).
Proof.
  rewrite FunctionsSpec.verify_token_first_row.
  destruct (filter (fun r => token r = tok) db) as [|row l]; [right; reflexivity|].
  destruct (granted _); [left|right]; reflexivity.
Qed.

(** X8. When several rows carry the token, the first one in table order
    decides: rows before it that carry other tokens and all rows after it
    have no influence. *)
Theorem first_match_decides (before after : list Token) (row : Token)
    (tok p : string) :
  (forall r, In r before -> token r <> tok) ->
  token row = tok ->
  verify_token (before ++ row :: after) tok p = verify_token [row] tok p.
Proof.
  intros Hbefore Hrow. rewrite !FunctionsSpec.verify_token_first_row.
  assert (Hf : filter (fun r => token r = tok) (before ++ row :: after)%list
               = row :: filter (fun r => token r = tok) after).
  { rewrite filter_app.
    assert (Hnil : filter (fun r => token r = tok) before = []).
    { induction before as [|a before IH]; [reflexivity|].
      rewrite filter_cons_False by (apply Hbefore; left; reflexivity).
      apply IH. intros r Hr. apply Hbefore. right. exact Hr. }
    rewrite Hnil. rewrite filter_cons_True by exact Hrow. reflexivity. }
  rewrite Hf. rewrite filter_cons_True by exact Hrow. reflexivity.
Qed.

Lemma first_match_decides_witness :
  (forall r, In r [token_xyz] -> token r <> "abc") /\
  token token_abc = "abc" /\
  verify_token ([token_xyz] ++ token_abc :: [token_abc_revoked]) "abc" "ban"
  = verify_token [token_abc] "abc" "ban".
Proof.
  assert (H : forall r, In r [token_xyz] -> token r <> "abc").
  { intros r [<-|[]]. discriminate. }
  split; [exact H|]. split; [reflexivity|].
  exact (first_match_decides [token_xyz] [token_abc_revoked] token_abc
           "abc" "ban" H eq_refl).
Defined.

Lemma equals_one (v : value) :
  equals v (VInt 1) = true <-> v = VInt 1 \/ v = VBool true.
Proof.
  destruct v as [|[|]|n|s]; simpl; split; intros H;
    try discriminate H; try (destruct H as [H|H]; discriminate H); auto.
  - apply Z.eqb_eq in H. left. congruence.
  - destruct H as [H|H]; [|discriminate H]. injection H as ->. reflexivity.
Qed.

(** X9. What a flag grants depends on the kind of its value: an integer
    grants exactly when it is 1, a boolean exactly when it is [True]; a
    text, even the text of 1, and [None] are denials. *)
Theorem flag_grants_by_kind (row : Token) (p : string)
    (field : Token -> value) :
  registry p = Some field ->
  (forall n, field row = VInt n ->
     (verify_token [row] (token row) p = Return true <-> n = 1))
  /\ (forall b, field row = VBool b ->
        (verify_token [row] (token row) p = Return true <-> b = true))
  /\ (forall s, field row = VStr s ->
        verify_token [row] (token row) p = Raise (PermissionDenied p))
  /\ (field row = VNone ->
      verify_token [row] (token row) p = Raise (PermissionDenied p)).
Proof.
  intros Hreg.
  assert (Hrun : verify_token [row] (token row) p
                 = if equals (field row) (VInt 1) then Return true
                   else Raise (PermissionDenied p)).
  { rewrite FunctionsSpec.verify_token_first_row.
    rewrite filter_cons_True by reflexivity. rewrite Hreg. reflexivity. }
  rewrite Hrun. split; [|split; [|split]].
  - intros n Hn. rewrite Hn. simpl. destruct (Z.eqb_spec n 1);
      split; intros H; congruence.
  - intros b Hb. rewrite Hb. destruct b; simpl; split; intros H;
      congruence.
  - intros t Ht. rewrite Ht. reflexivity.
  - intros Hnone. rewrite Hnone. reflexivity.
Qed.

Lemma flag_grants_by_kind_witness :
  registry "hiscore" = Some request_highscores /\
  ((forall n, request_highscores token_truthy = VInt n ->
      (verify_token [token_truthy] (token token_truthy) "hiscore"
       = Return true <-> n = 1))
   /\ (forall b, request_highscores token_truthy = VBool b ->
         (verify_token [token_truthy] (token token_truthy) "hiscore"
          = Return true <-> b = true))
   /\ (forall s, request_highscores token_truthy = VStr s ->
         verify_token [token_truthy] (token token_truthy) "hiscore"
         = Raise (PermissionDenied "hiscore"))
   /\ (request_highscores token_truthy = VNone ->
       verify_token [token_truthy] (token token_truthy) "hiscore"
       = Raise (PermissionDenied "hiscore"))).
Proof.
  split; [reflexivity|].
  exact (flag_grants_by_kind token_truthy "hiscore" request_highscores eq_refl).
Defined.

Example truthy_flag_denied :
  verify_token [token_truthy] "t2" "hiscore"
  = Raise (PermissionDenied "hiscore").
Proof. reflexivity. Qed.

End VerifySpec.

(* ===================================================================== *)
(** * Calls of [verify_token] and the guard of the router *)
(* ===================================================================== *)

Module CallSpec.
Import Py Functions Spec Samples Highscore.

(** X10. A call that names the parameters as the signature spells them,
    positionally or by keyword in either order, reaches the body of
    [verify_token] with these arguments. *)
Theorem call_forms_reach_body (db : list Token) (tok p : string) :
  call_verify_token db [tok; p] [] = verify_token db tok p
  /\ call_verify_token db [tok] [("verifcation", p)] = verify_token db tok p
  /\ call_verify_token db [] [("token", tok); ("verifcation", p)]
     = verify_token db tok p
  /\ call_verify_token db [] [("verifcation", p); ("token", tok)]
     = verify_token db tok p.
Proof. repeat split. Qed.

Lemma bind_keywords_unknown {A} (params : list string)
    (kw b : list (string * A)) (k : string) :
  In k (map fst kw) -> mem_str k params = false ->
  exists why, bind_keywords params b kw = Raise (TypeError why).
Proof.
  intros Hin Hk. revert b.
  induction kw as [|[k' a] kw IH]; intros b; [contradiction|].
  simpl. destruct (mem_str k' params) eqn:Hk'; simpl; [|eauto].
  destruct (bound b k'); [eauto|].
  apply IH. destruct Hin as [Heq|Hin]; [|exact Hin].
  simpl in Heq. congruence.
Qed.

(** X11. A call of [verify_token] that passes any keyword other than
    [token] and [verifcation] is refused with [TypeError], whatever the
    other arguments are: the body does not run. *)
Theorem unknown_keyword_refused (db : list Token) (pos : list string)
    (kw : list (string * string)) (k : string) :
  In k (map fst kw) ->
  ~ In k verify_token_params ->
  exists why, call_verify_token db pos kw = Raise (TypeError why).
Proof.
  intros Hin Hk. unfold call_verify_token, bind_args.
  assert (Hmem : mem_str k verify_token_params = false).
  { destruct (mem_str k verify_token_params) eqn:H; [|reflexivity].
    exfalso. apply Hk. unfold mem_str in H. apply existsb_exists in H.
    destruct H as (x & Hx & Heq). apply String.eqb_eq in Heq. congruence. }
  destruct (bind_keywords_unknown verify_token_params kw
              (combine verify_token_params pos) k Hin Hmem) as [why ->].
  exists why. reflexivity.
Qed.

Lemma unknown_keyword_refused_witness :
  In "route" (map fst [("verifcation", "ban"); ("route", "GET /hiscore")]) /\
  ~ In "route" verify_token_params /\
  exists why,
    call_verify_token [token_abc] ["abc"]
      [("verifcation", "ban"); ("route", "GET /hiscore")]
    = Raise (TypeError why).
Proof.
  assert (H1 : In "route"
                 (map fst [("verifcation", "ban"); ("route", "GET /hiscore")])).
  { simpl. auto. }
  assert (H2 : ~ In "route" verify_token_params).
  { simpl. intros [H|[H|[]]]; discriminate H. }
  split; [exact H1|]. split; [exact H2|].
  exact (unknown_keyword_refused [token_abc] ["abc"]
           [("verifcation", "ban"); ("route", "GET /hiscore")] "route" H1 H2).
Defined.

Section Guard.

Variable Request : Type.
Variable build_route_log_string : Request -> result string.
Variable str : exn -> string.

Local Abbreviation verify_and_log_token :=
  (Highscore.verify_and_log_token Request build_route_log_string str).


End Guard.

End CallSpec.

(* ===================================================================== *)
(** * How [execute_sql] tells reads from writes *)
(* ===================================================================== *)

Module ClassifySpec.
Import Py Functions Spec Samples.

Lemma lower_char_isspace (c : ascii) : isspace (lower_char c) = isspace c.
Proof. destruct c as [[] [] [] [] [] [] [] []]; reflexivity. Qed.

Lemma lstrip_lower (s : string) : lstrip (lower s) = lower (lstrip s).
Proof.
  induction s as [|c s IH]; simpl; [reflexivity|].
  rewrite lower_char_isspace. destruct (isspace c); [exact IH|reflexivity].
Qed.

Lemma rstrip_lower (s : string) : rstrip (lower s) = lower (rstrip s).
Proof.
  induction s as [|c s IH]; simpl; [reflexivity|].
  rewrite IH, lower_char_isspace.
  destruct (rstrip s); simpl; [destruct (isspace c)|]; reflexivity.
Qed.

Lemma strip_lower (s : string) : strip (lower s) = lower (strip s).
Proof. unfold strip. rewrite lstrip_lower. apply rstrip_lower. Qed.

(** X13. The classification does not look at letter case: two statements
    that differ only in the case of their letters are both reads or both
    writes. *)
Theorem has_return_ignores_case (a b : string) :
  lower a = lower b -> has_return a = has_return b.
Proof.
  intros H. unfold has_return.
  rewrite <- (strip_lower a), <- (strip_lower b), H. reflexivity.
Qed.

Lemma has_return_ignores_case_witness :
  lower "Select * FROM Scores" = lower "sELECT * from scores" /\
  has_return "Select * FROM Scores" = has_return "sELECT * from scores".
Proof.
  split; [reflexivity|].
  apply (has_return_ignores_case "Select * FROM Scores" "sELECT * from scores").
  reflexivity.
Defined.

Lemma lstrip_blank (ws : string) :
  all_chars isspace ws = true -> lstrip ws = "".
Proof.
  induction ws as [|c ws IH]; simpl; [reflexivity|].
  intros H. apply andb_prop in H as [Hc Hws]. rewrite Hc. exact (IH Hws).
Qed.

Lemma rstrip_blank (ws : string) :
  all_chars isspace ws = true -> rstrip ws = "".
Proof.
  induction ws as [|c ws IH]; simpl; [reflexivity|].
  intros H. apply andb_prop in H as [Hc Hws]. rewrite (IH Hws), Hc.
  reflexivity.
Qed.

Lemma lstrip_app_blank (ws s : string) :
  all_chars isspace ws = true -> lstrip (ws ++ s) = lstrip s.
Proof.
  induction ws as [|c ws IH]; [reflexivity|].
  simpl. intros H. apply andb_prop in H as [Hc Hws]. rewrite Hc.
  exact (IH Hws).
Qed.

Lemma rstrip_app_blank (s ws : string) :
  all_chars isspace ws = true -> rstrip (s ++ ws) = rstrip s.
Proof.
  intros H. induction s as [|c s IH].
  - exact (rstrip_blank ws H).
  - change (rstrip (String c (s ++ ws)) = rstrip (String c s)).
    simpl. rewrite IH. reflexivity.
Qed.

Lemma lstrip_app_right (s ws : string) :
  all_chars isspace ws = true ->
  lstrip (s ++ ws) = match lstrip s with
                     | EmptyString => EmptyString
                     | r => r ++ ws
                     end.
Proof.
  intros H. induction s as [|c s IH].
  - simpl. exact (lstrip_blank ws H).
  - change (lstrip (String c (s ++ ws))
            = match lstrip (String c s) with
              | EmptyString => EmptyString
              | r => r ++ ws
              end).
    simpl. destruct (isspace c); [exact IH|reflexivity].
Qed.

Lemma strip_padded (ws1 s ws2 : string) :
  all_chars isspace ws1 = true -> all_chars isspace ws2 = true ->
  strip (ws1 ++ s ++ ws2) = strip s.
Proof.
  intros H1 H2. unfold strip.
  rewrite (lstrip_app_blank ws1 _ H1), (lstrip_app_right s ws2 H2).
  destruct (lstrip s) as [|c r] eqn:E; [reflexivity|].
  apply (rstrip_app_blank (String c r) ws2 H2).
Qed.

(** X14. White space around a statement does not change its class: blanks,
    tabs and line ends before and after the text are ignored. *)
Theorem has_return_ignores_padding (ws1 sql ws2 : string) :
  all_chars isspace ws1 = true ->
  all_chars isspace ws2 = true ->
  has_return (ws1 ++ sql ++ ws2) = has_return sql.
Proof.
  intros H1 H2. unfold has_return. rewrite (strip_padded ws1 sql ws2 H1 H2).
  reflexivity.
Qed.

Lemma has_return_ignores_padding_witness :
  all_chars isspace padding_before = true /\
  all_chars isspace padding_after = true /\
  has_return (padding_before ++ "select 1" ++ padding_after)
  = has_return "select 1".
Proof.
  split; [reflexivity|]. split; [reflexivity|].
  apply (has_return_ignores_padding padding_before "select 1" padding_after);
    reflexivity.
Defined.

Lemma lower_app (s t : string) : lower (s ++ t) = lower s ++ lower t.
Proof.
  induction s as [|c s IH]; [reflexivity|].
  change (String (lower_char c) (lower (s ++ t))
          = String (lower_char c) (lower s ++ lower t)).
  f_equal. exact IH.
Qed.

Lemma lower_app_inv (s a b : string) :
  lower s = a ++ b ->
  exists s1 s2, s = s1 ++ s2 /\ lower s1 = a /\ lower s2 = b.
Proof.
  revert s. induction a as [|c a IH]; intros s H.
  - exists "", s. auto.
  - destruct s as [|c' s]; [discriminate H|].
    change (String (lower_char c') (lower s) = String c (a ++ b)) in H.
    injection H as Hc H. destruct (IH s H) as (s1 & s2 & -> & H1 & H2).
    exists (String c' s1), s2. simpl. rewrite H1, Hc. auto.
Qed.

(** X15. A statement is a read exactly when its text, with the white
    space around it removed, begins with the six letters of [select] in
    any case; what follows them is not looked at, so there is no word
    boundary, and a statement that begins otherwise is a write. *)
Theorem has_return_first_six (sql : string) :
  has_return sql = true <->
  exists kw rest, strip sql = kw ++ rest /\ lower kw = "select".
Proof.
  rewrite ExecutorSpec.has_return_iff. split.
  - intros [rest H]. apply lower_app_inv in H as (kw & r & H & Hkw & _).
    eauto.
  - intros (kw & rest & H & Hkw). exists (lower rest).
    rewrite H, lower_app, Hkw. reflexivity.
Qed.

Example read_without_word_boundary :
  has_return "SELECTIVITY_FLAGS := 1" = true.
Proof. reflexivity. Qed.

Example with_clause_is_write :
  has_return "with t as (select 1) select * from t" = false
  /\ has_return "(select 1) union (select 2)" = false
  /\ has_return "" = false.
Proof. repeat split. Qed.

End ClassifySpec.

(* ===================================================================== *)
(** * Further properties of [execute_sql] *)
(* ===================================================================== *)

Module RunSpec.
Import Py Functions Spec Samples ExecutorSpec.

(** ** The window of rows *)

(** X16. Consecutive pages touch without overlap: from page 1 on, the
    offset bound for the next page is the offset of this page plus the
    row limit, and both pages are bound to the same limit. *)
Theorem pages_tile (db : store) (sql : string) (param : option loc)
    (debug : bool) (row_count page : Z) (w : world) :
  has_return sql = true ->
  on_connect db = None ->
  page >= 1 ->
  exists q d d' off lim,
    executed (new_events w
      (snd (execute_sql db sql param debug row_count page w))) = [(q, d)]
    /\ executed (new_events w
         (snd (execute_sql db sql param debug row_count (page + 1) w)))
       = [(q, d')]
    /\ d !! "offset" = Some (VInt off)
    /\ d' !! "offset" = Some (VInt (off + lim))
    /\ d !! "row_count" = Some (VInt lim)
    /\ d' !! "row_count" = Some (VInt lim).
Proof.
  intros Hr Hc Hpage.
  set (d0 := heap w !!! default default_param param).
  exists (sql ++ " limit :offset, :row_count"),
    (paginated d0 row_count page), (paginated d0 row_count (page + 1)),
    ((page - 1) * Z.min row_count 100000), (Z.min row_count 100000).
  rewrite !executed_after by assumption. rewrite Hr. cbv zeta. fold d0.
  destruct (paginated_lookup d0 row_count page) as (Hrc & Hoff & _).
  destruct (paginated_lookup d0 row_count (page + 1)) as (Hrc' & Hoff' & _).
  rewrite Hrc, Hrc', Hoff, Hoff'.
  rewrite (Z.max_l page 1) by lia. rewrite (Z.max_l (page + 1) 1) by lia.
  repeat split. do 2 f_equal. ring.
Qed.

Lemma pages_tile_witness :
  has_return "select * from scores" = true /\
  on_connect store_ok = None /\
  3 >= 1 /\
  exists q d d' off lim,
    executed (new_events initial_world
      (snd (execute_sql store_ok "select * from scores" None false 50 3
              initial_world))) = [(q, d)]
    /\ executed (new_events initial_world
         (snd (execute_sql store_ok "select * from scores" None false 50
                 (3 + 1) initial_world))) = [(q, d')]
    /\ d !! "offset" = Some (VInt off)
    /\ d' !! "offset" = Some (VInt (off + lim))
    /\ d !! "row_count" = Some (VInt lim)
    /\ d' !! "row_count" = Some (VInt lim).
Proof.
  assert (H : 3 >= 1) by lia.
  split; [reflexivity|]. split; [reflexivity|]. split; [exact H|].
  exact (pages_tile store_ok "select * from scores" None false 50 3
           initial_world eq_refl eq_refl H).
Defined.

(** X17. The bound row limit never exceeds 100000 nor the limit asked
    for; when the limit asked for is not negative, neither the bound
    limit nor the bound offset is negative; every page up to 1 starts at
    offset 0. *)
Theorem pagination_bounds (db : store) (sql : string) (param : option loc)
    (debug : bool) (row_count page : Z) (w : world) :
  has_return sql = true ->
  on_connect db = None ->
  exists q d off lim,
    executed (new_events w
      (snd (execute_sql db sql param debug row_count page w))) = [(q, d)]
    /\ d !! "offset" = Some (VInt off)
    /\ d !! "row_count" = Some (VInt lim)
    /\ lim <= 100000
    /\ lim <= row_count
    /\ (0 <= row_count -> 0 <= lim /\ 0 <= off)
    /\ (page <= 1 -> off = 0).
Proof.
  intros Hr Hc.
  set (d0 := heap w !!! default default_param param).
  exists (sql ++ " limit :offset, :row_count"), (paginated d0 row_count page),
    ((Z.max page 1 - 1) * Z.min row_count 100000), (Z.min row_count 100000).
  rewrite executed_after by assumption. rewrite Hr. cbv zeta. fold d0.
  destruct (paginated_lookup d0 row_count page) as (Hrc & Hoff & _).
  repeat split; try assumption; try lia.
  - apply Z.mul_nonneg_nonneg; lia.
  - intros Hp. rewrite (Z.max_r page 1) by lia. reflexivity.
Qed.

Lemma pagination_bounds_witness :
  has_return "select * from scores" = true /\
  on_connect store_ok = None /\
  exists q d off lim,
    executed (new_events initial_world
      (snd (execute_sql store_ok "select * from scores" None false 250000 7
              initial_world))) = [(q, d)]
    /\ d !! "offset" = Some (VInt off)
    /\ d !! "row_count" = Some (VInt lim)
    /\ lim <= 100000
    /\ lim <= 250000
    /\ (0 <= 250000 -> 0 <= lim /\ 0 <= off)
    /\ (7 <= 1 -> off = 0).
Proof.
  split; [reflexivity|]. split; [reflexivity|].
  exact (pagination_bounds store_ok "select * from scores" None false 250000 7
           initial_world eq_refl eq_refl).
Defined.

(** X18. There is no lower bound on the row limit: a limit of zero or
    less is bound as it was given, the offset is then zero or less, and a
    negative limit with a page from 2 on gives a negative offset. *)
Theorem nonpositive_limit_sent (db : store) (sql : string)
    (param : option loc) (debug : bool) (row_count page : Z) (w : world) :
  has_return sql = true ->
  on_connect db = None ->
  row_count <= 0 ->
  exists q d off,
    executed (new_events w
      (snd (execute_sql db sql param debug row_count page w))) = [(q, d)]
    /\ d !! "row_count" = Some (VInt row_count)
    /\ d !! "offset" = Some (VInt off)
    /\ off <= 0
    /\ (row_count < 0 -> page >= 2 -> off < 0).
Proof.
  intros Hr Hc Hrc.
  set (d0 := heap w !!! default default_param param).
  exists (sql ++ " limit :offset, :row_count"), (paginated d0 row_count page),
    ((Z.max page 1 - 1) * row_count).
  rewrite executed_after by assumption. rewrite Hr. cbv zeta. fold d0.
  destruct (paginated_lookup d0 row_count page) as (Hlim & Hoff & _).
  rewrite (Z.min_l row_count 100000) in Hlim, Hoff by lia.
  repeat split; try assumption.
  - apply Z.mul_nonneg_nonpos; lia.
  - intros Hneg Hpage. apply Z.mul_pos_neg; lia.
Qed.

Lemma nonpositive_limit_sent_witness :
  has_return "select * from scores" = true /\
  on_connect store_ok = None /\
  -5 <= 0 /\
  exists q d off,
    executed (new_events initial_world
      (snd (execute_sql store_ok "select * from scores" None false (-5) 3
              initial_world))) = [(q, d)]
    /\ d !! "row_count" = Some (VInt (-5))
    /\ d !! "offset" = Some (VInt off)
    /\ off <= 0
    /\ (-5 < 0 -> 3 >= 2 -> off < 0).
Proof.
  assert (H : -5 <= 0) by lia.
  split; [reflexivity|]. split; [reflexivity|]. split; [exact H|].
  exact (nonpositive_limit_sent store_ok "select * from scores" None false
           (-5) 3 initial_world eq_refl eq_refl H).
Defined.

(** ** What a call changes *)

(** X19. The [debug] flag only adds log lines: with and without it the
    call has the same outcome and leaves the same mappings and the same
    pool, and its events are those of the quiet call after the three log
    lines. *)
Theorem debug_only_logs (db : store) (sql : string) (param : option loc)
    (row_count page : Z) (w : world) :
  let quiet := execute_sql db sql param false row_count page w in
  let loud := execute_sql db sql param true row_count page w in
  fst loud = fst quiet
  /\ heap (snd loud) = heap (snd quiet)
  /\ idle (snd loud) = idle (snd quiet)
  /\ checked_out (snd loud) = checked_out (snd quiet)
  /\ new_events w (snd loud)
     = (debug_lines true ++ new_events w (snd quiet))%list.
Proof.
  cbv zeta. unfold new_events.
  pose proof (execute_sql_run db sql param false row_count page w) as Hq.
  pose proof (execute_sql_run db sql param true row_count page w) as Hl.
  cbv zeta in Hq, Hl. rewrite Hq, Hl. clear Hq Hl.
  destruct (on_connect db); [|store_cases db];
    cbn [fst snd heap idle checked_out trace];
    rewrite <- ?app_assoc, !drop_app_length; repeat split.
Qed.

(** X20. A call changes no mapping object but the one it was given (the
    default one when [param] is left out). *)
Theorem other_mappings_untouched (db : store) (sql : string)
    (param : option loc) (debug : bool) (row_count page : Z) (w : world)
    (l' : loc) :
  l' <> default default_param param ->
  heap (snd (execute_sql db sql param debug row_count page w)) !! l'
  = heap w !! l'.
Proof.
  intros Hne. rewrite heap_after. cbv zeta.
  destruct (has_return sql); [|reflexivity].
  apply lookup_insert_ne. congruence.
Qed.

Lemma other_mappings_untouched_witness :
  default_param <> default default_param (Some caller_loc) /\
  heap (snd (execute_sql store_ok "select * from scores" (Some caller_loc)
               false 5 2 world_with_caller)) !! default_param
  = heap world_with_caller !! default_param.
Proof.
  assert (H : default_param <> default default_param (Some caller_loc))
    by discriminate.
  split; [exact H|].
  exact (other_mappings_untouched store_ok "select * from scores"
           (Some caller_loc) false 5 2 world_with_caller default_param H).
Defined.

Lemma paginated_twice (d : dict) (rc1 pg1 rc2 pg2 : Z) :
  paginated (paginated d rc1 pg1) rc2 pg2 = paginated d rc2 pg2.
Proof.
  apply map_eq. intros k. unfold paginated.
  destruct (decide (k = "row_count")) as [->|H1];
    [rewrite !lookup_insert_eq; reflexivity|].
  rewrite !(lookup_insert_ne _ "row_count") by congruence.
  destruct (decide (k = "offset")) as [->|H2];
    [rewrite !lookup_insert_eq; reflexivity|].
  rewrite !(lookup_insert_ne _ "offset") by congruence.
  rewrite lookup_insert_ne by congruence.
  rewrite lookup_insert_ne by congruence. reflexivity.
Qed.

(** X21. Of two reads on the same mapping object the later one leaves
    its own pagination values: the mappings after both calls are those
    after the second call alone, whatever the first call asked for. *)
Theorem later_read_overwrites (db1 db2 : store) (sql1 sql2 : string)
    (param : option loc) (debug1 debug2 : bool)
    (row_count1 page1 row_count2 page2 : Z) (w : world) :
  has_return sql1 = true ->
  has_return sql2 = true ->
  heap (snd (execute_sql db2 sql2 param debug2 row_count2 page2
               (snd (execute_sql db1 sql1 param debug1 row_count1 page1 w))))
  = heap (snd (execute_sql db2 sql2 param debug2 row_count2 page2 w)).
Proof.
  intros H1 H2. rewrite !heap_after. rewrite H1, H2. cbv zeta.
  rewrite lookup_total_insert_eq, insert_insert_eq, paginated_twice.
  reflexivity.
Qed.

Lemma later_read_overwrites_witness :
  has_return "select * from scores" = true /\
  has_return "select id from players" = true /\
  heap (snd (execute_sql store_ok "select id from players" None true 10 4
               (snd (execute_sql store_rejecting "select * from scores" None
                       false 5 2 initial_world))))
  = heap (snd (execute_sql store_ok "select id from players" None true 10 4
                 initial_world)).
Proof.
  split; [reflexivity|]. split; [reflexivity|].
  exact (later_read_overwrites store_rejecting store_ok
           "select * from scores" "select id from players" None false true
           5 2 10 4 initial_world eq_refl eq_refl).
Defined.

(** ** The outcome of a call *)

(** X22. When the store answers the statement that a read sends, with
    the mapping bound to it, and the commit goes through, the call
    returns a cursor over this very answer with no row taken yet: its
    mappings are all rows of the answer, each under the column names. *)
Theorem read_returns_unread_rows (db : store) (sql : string)
    (param : option loc) (debug : bool) (row_count page : Z) (w : world)
    (c : CursorResult) (columns : list string) :
  has_return sql = true ->
  on_connect db = None ->
  on_commit db = None ->
  on_execute db (sql ++ " limit :offset, :row_count")
    (paginated (heap w !!! default default_param param) row_count page)
  = Return c ->
  description c = Some columns ->
  executed (new_events w
    (snd (execute_sql db sql param debug row_count page w)))
  = [(sql ++ " limit :offset, :row_count",
      paginated (heap w !!! default default_param param) row_count page)]
  /\ fst (execute_sql db sql param debug row_count page w)
     = Return (Some (sql_cursor.__init__ c))
  /\ fst (sql_cursor.rows2dict (sql_cursor.__init__ c))
     = Return (map (combine columns) (pending c)).
Proof.
  intros Hr Hc Hcommit Hexec Hd. split; [|split].
  - rewrite executed_after by assumption. rewrite Hr. reflexivity.
  - unfold_run. rewrite Hr, Hc, Hexec, Hcommit. reflexivity.
  - unfold sql_cursor.rows2dict, sql_cursor.__init__, mappings_all.
    cbn [sql_cursor.rows]. rewrite Hd. reflexivity.
Qed.

Lemma read_returns_unread_rows_witness :
  has_return "select * from scores" = true /\
  on_connect store_by_statement = None /\
  on_commit store_by_statement = None /\
  on_execute store_by_statement
    ("select * from scores" ++ " limit :offset, :row_count")
    (paginated (heap initial_world !!! default default_param None) 5 2)
  = Return result_scores /\
  description result_scores = Some ["id"; "score"] /\
  (executed (new_events initial_world
     (snd (execute_sql store_by_statement "select * from scores" None false
             5 2 initial_world)))
   = [("select * from scores" ++ " limit :offset, :row_count",
       paginated (heap initial_world !!! default default_param None) 5 2)]
   /\ fst (execute_sql store_by_statement "select * from scores" None false
             5 2 initial_world)
      = Return (Some (sql_cursor.__init__ result_scores))
   /\ fst (sql_cursor.rows2dict (sql_cursor.__init__ result_scores))
      = Return (map (combine ["id"; "score"]) (pending result_scores))).
Proof.
  split; [reflexivity|]. split; [reflexivity|]. split; [reflexivity|].
  split; [reflexivity|]. split; [reflexivity|].
  exact (read_returns_unread_rows store_by_statement "select * from scores"
           None false 5 2 initial_world result_scores ["id"; "score"]
           eq_refl eq_refl eq_refl eq_refl eq_refl).
Defined.

(** X23. A call returns exactly when it has committed, and it disposes
    of the pool exactly then: reads are committed like writes, and a call
    that raises has neither committed nor disposed. *)
Theorem returns_iff_committed (db : store) (sql : string)
    (param : option loc) (debug : bool) (row_count page : Z) (w : world) :
  let run := execute_sql db sql param debug row_count page w in
  let evs := new_events w (snd run) in
  ((exists r, fst run = Return r) <-> In Commit evs)
  /\ (In Commit evs <-> In Dispose evs).
Proof.
  cbv zeta. unfold_run. unfold new_events.
  destruct (on_connect db); [|store_cases db];
    cbn [fst snd trace]; rewrite <- ?app_assoc, drop_app_length;
    rewrite ?in_app_iff; destruct debug; simpl;
    (split; split; [intros [r H]; try discriminate H; tauto
                   |intros H; try (eexists; reflexivity);
                    exfalso; intuition discriminate
                   |intros H; try tauto; exfalso; intuition discriminate
                   |intros H; try tauto; exfalso; intuition discriminate]).
Qed.

Lemma times_app (p : event -> bool) (l1 l2 : list event) :
  times p (l1 ++ l2) = (times p l1 + times p l2)%nat.
Proof. unfold times. rewrite List.filter_app. apply length_app. Qed.

Lemma times_debug_lines (p : event -> bool) (debug : bool) :
  (forall line, p (LogDebug line) = false) ->
  times p (debug_lines debug) = 0%nat.
Proof.
  intros H. unfold times, debug_lines.
  destruct debug; simpl; rewrite ?H; reflexivity.
Qed.

(** X24. A call raises exactly the exception the store raised at its one
    attempt to connect, to execute the statement sent or to commit, in
    this order and unchanged; nothing is tried twice: a call connects,
    sends a statement and commits at most once each. *)
Theorem raises_what_the_store_raised (db : store) (sql : string)
    (param : option loc) (debug : bool) (row_count page : Z) (w : world) :
  let l := default default_param param in
  let q := if has_return sql then sql ++ " limit :offset, :row_count"
           else sql in
  let d := if has_return sql then paginated (heap w !!! l) row_count page
           else heap w !!! l in
  let run := execute_sql db sql param debug row_count page w in
  let evs := new_events w (snd run) in
  (forall e,
     fst run = Raise e <->
     on_connect db = Some e
     \/ (on_connect db = None
         /\ (on_execute db q d = Raise e
             \/ ((exists rows, on_execute db q d = Return rows)
                 /\ on_commit db = Some e))))
  /\ (times is_connect evs <= 1)%nat
  /\ (times is_execute evs <= 1)%nat
  /\ (times is_commit evs <= 1)%nat.
Proof.
  cbv zeta. unfold_run. unfold new_events.
  set (q := if has_return sql then _ else sql).
  set (d := if has_return sql then paginated _ _ _ else _).
  destruct (on_connect db) as [e0|].
  - cbn [fst snd trace]. rewrite drop_app_length.
    rewrite !times_debug_lines by reflexivity.
    split; [|repeat split; lia].
    intros e. split.
    + intros H. left. congruence.
    + intros [H|[H _]]; [congruence|discriminate H].
  - destruct (on_execute db q d) as [rows|ex] eqn:Hx;
      [destruct (on_commit db) as [ec|] eqn:Hcm|];
      cbn [fst snd trace]; rewrite <- app_assoc, drop_app_length;
      rewrite !times_app, !times_debug_lines by reflexivity;
      (split; [|unfold times; simpl; repeat split; lia]); intros e; split.
    + intros H. right. split; [reflexivity|]. right.
      split; [eauto|congruence].
    + intros [H|[_ [H|[_ H]]]]; [discriminate H|discriminate H|congruence].
    + discriminate.
    + intros [H|[_ [H|[_ H]]]]; discriminate H.
    + intros H. right. split; [reflexivity|]. left. congruence.
    + intros [H|[_ [H|[[rows H] _]]]];
        [discriminate H|congruence|discriminate H].
Qed.

(** X25. When no connection can be made, the call raises the error of
    the connection attempt, sends no statement and leaves the pool as it
    was; the mapping of a read has been assigned to all the same. *)
Theorem connect_failure (db : store) (sql : string) (param : option loc)
    (debug : bool) (row_count page : Z) (w : world) (e : exn) :
  on_connect db = Some e ->
  let run := execute_sql db sql param debug row_count page w in
  fst run = Raise e
  /\ new_events w (snd run) = debug_lines debug
  /\ idle (snd run) = idle w
  /\ checked_out (snd run) = checked_out w
  /\ (has_return sql = true ->
      is_Some ((heap (snd run) !!! default default_param param : dict)
                 !! "offset")).
Proof.
  intros Hc. cbv zeta. split; [|split; [|split; [|split]]].
  - unfold_run. rewrite Hc. reflexivity.
  - unfold_run. rewrite Hc. unfold new_events. cbn [snd trace].
    apply drop_app_length.
  - unfold_run. rewrite Hc. reflexivity.
  - unfold_run. rewrite Hc. reflexivity.
  - intros Hr. rewrite heap_after, Hr. cbv zeta.
    rewrite lookup_total_insert_eq.
    destruct (paginated_lookup (heap w !!! default default_param param)
                row_count page) as (_ & Hoff & _).
    rewrite Hoff. eauto.
Qed.

Lemma connect_failure_witness :
  on_connect store_down = Some (DBAPIError "Can't connect to MySQL server") /\
  let run := execute_sql store_down "select * from scores" None true 5 2
               initial_world in
  fst run = Raise (DBAPIError "Can't connect to MySQL server")
  /\ new_events initial_world (snd run) = debug_lines true
  /\ idle (snd run) = idle initial_world
  /\ checked_out (snd run) = checked_out initial_world
  /\ (has_return "select * from scores" = true ->
      is_Some ((heap (snd run) !!! default default_param None : dict)
                 !! "offset")).
Proof.
  split; [reflexivity|].
  exact (connect_failure store_down "select * from scores" None true 5 2
           initial_world _ eq_refl).
Defined.

(** X26. Once a connection was made it is released on every way out,
    return or exception, and so is the session: the steps of the call
    hold the closing of the session and the release, in this order after
    the statement, and as many connections are checked out after the call
    as before. *)
Theorem connection_always_released (db : store) (sql : string)
    (param : option loc) (debug : bool) (row_count page : Z) (w : world) :
  on_connect db = None ->
  let w' := snd (execute_sql db sql param debug row_count page w) in
  (exists before q d between after,
     new_events w w'
     = (before ++ Execute q d :: between ++ SessionClose :: Release :: after)%list
     /\ (after = [] \/ after = [Dispose]))
  /\ checked_out w' = checked_out w.
Proof.
  intros Hc. cbv zeta. unfold_run. rewrite Hc. unfold new_events.
  set (before := (debug_lines debug
                    ++ [Connect (0 <? idle w)%nat; SessionOpen])%list).
  match goal with
  | |- context [Execute ?q ?d] =>
      store_cases db; cbn [snd trace checked_out];
        rewrite <- app_assoc, drop_app_length; (split; [|reflexivity]);
        [exists before, q, d, [], []
        |exists before, q, d, [Commit], [Dispose]
        |exists before, q, d, [], []]
  end.
  all: subst before; rewrite <- app_assoc; simpl; auto.
Qed.

Lemma connection_always_released_witness :
  on_connect store_rejecting = None /\
  let w' := snd (execute_sql store_rejecting "select * from" None false
                   100000 1 initial_world) in
  (exists before q d between after,
     new_events initial_world w'
     = (before ++ Execute q d :: between ++ SessionClose :: Release :: after)%list
     /\ (after = [] \/ after = [Dispose]))
  /\ checked_out w' = checked_out initial_world.
Proof.
  split; [reflexivity|].
  exact (connection_always_released store_rejecting "select * from" None
           false 100000 1 initial_world eq_refl).
Defined.

End RunSpec.

(* ===================================================================== *)
(** * Further properties of [sql_cursor] *)
(* ===================================================================== *)

Module CursorMoreSpec.
Import Py Functions Spec Samples CursorSpec.

Lemma check_names_inv (names : list string) :
  check_names names = Return tt ->
  Forall (fun n => isidentifier n = true /\ iskeyword n = false) names.
Proof.
  induction names as [|n names IH]; simpl; intros H; [constructor|].
  destruct (isidentifier n) eqn:Hid; simpl in H; [|discriminate H].
  destruct (iskeyword n) eqn:Hkw; [discriminate H|].
  constructor; auto.
Qed.

Lemma check_fields_inv (names seen : list string) :
  check_fields seen names = Return tt ->
  Forall (fun n => startswith n "_" = false) names
  /\ NoDup names
  /\ (forall x, In x names -> ~ In x seen).
Proof.
  revert seen. induction names as [|n names IH]; simpl; intros seen H.
  - split; [constructor|]. split; [constructor|]. intros x [].
  - destruct (startswith n "_") eqn:Hus; [discriminate H|].
    destruct (mem_str n seen) eqn:Hmem; [discriminate H|].
    destruct (IH (n :: seen) H) as (Hall & Hnd & Hseen).
    split; [constructor; assumption|]. split.
    + apply NoDup_cons. split; [|exact Hnd].
      intros Hin. apply list_elem_of_In in Hin.
      apply (Hseen n Hin). left. reflexivity.
    + intros x [<-|Hx] Hin.
      * apply mem_str_In in Hin. congruence.
      * apply (Hseen x Hx). right. exact Hin.
Qed.

Lemma check_arguments_inv (names seen : list string) :
  check_arguments seen names = Return tt ->
  NoDup (map nfkc names)
  /\ (forall x, In x names -> ~ In (nfkc x) seen).
Proof.
  revert seen. induction names as [|n names IH]; simpl; intros seen H.
  - split; [constructor|]. intros x [].
  - destruct (mem_str (nfkc n) seen) eqn:Hmem; [discriminate H|].
    destruct (IH _ H) as [Hnd Hseen]. split.
    + apply NoDup_cons. split; [|exact Hnd].
      intros Hin. apply list_elem_of_In, in_map_iff in Hin.
      destruct Hin as (x & Heq & Hx).
      apply (Hseen x Hx). left. symmetry. exact Heq.
    + intros x [<-|Hx] Hin.
      * apply mem_str_In in Hin. congruence.
      * apply (Hseen x Hx). right. exact Hin.
Qed.

Lemma namedtuple_inv (names cls : list string) :
  namedtuple "Record" names = Return cls ->
  cls = names /\ Forall field_name_ok names /\ NoDup (map nfkc names).
Proof.
  unfold namedtuple.
  change (check_names ("Record" :: names)) with (check_names names).
  destruct (check_names names) as [[]|e] eqn:Hn; [|discriminate].
  cbn [bind].
  destruct (check_fields [] names) as [[]|e] eqn:Hf; [|discriminate].
  cbn [bind].
  destruct (check_arguments ["_cls"] names) as [[]|e] eqn:Ha; [|discriminate].
  cbn [bind]. intros H. injection H as <-. split; [reflexivity|].
  apply check_names_inv in Hn. apply check_fields_inv in Hf as (Hus & _ & _).
  apply check_arguments_inv in Ha as [Hnd _].
  split; [|exact Hnd].
  apply Forall_forall. intros x Hx.
  rewrite Forall_forall in Hn, Hus.
  destruct (Hn x Hx) as [Hid Hkw]. unfold field_name_ok. auto.
Qed.

Lemma rows2tuple_run (c : CursorResult) (columns : list string) :
  description c = Some columns ->
  Forall field_name_ok columns ->
  NoDup (map nfkc columns) ->
  Forall (fun row => length row = length columns) (pending c) ->
  sql_cursor.rows2tuple (sql_cursor.__init__ c)
  = (Return (map (fun row => {| _fields := columns; items := row |})
               (pending c)),
     sql_cursor.__init__ (exhausted c)).
Proof.
  intros Hd Hok Hnd Hrows.
  unfold sql_cursor.rows2tuple, sql_cursor.__init__, fetchall, keys.
  cbn [sql_cursor.rows]. rewrite Hd. cbn [bind].
  rewrite (namedtuple_accepts columns Hok Hnd). cbn [bind].
  rewrite (mapM_new columns (pending c) Hrows). reflexivity.
Qed.

(** X27. The records of a result exist exactly when [namedtuple] takes
    every column name: for rows with one value per column, [rows2tuple]
    returns if and only if the column names are identifiers that are no
    keywords, do not start with an underscore and are distinct in the
    normal form the parser gives them; otherwise it raises. *)
Theorem rows2tuple_returns_iff (c : CursorResult) (columns : list string) :
  description c = Some columns ->
  Forall (fun row => length row = length columns) (pending c) ->
  ((exists ts, fst (sql_cursor.rows2tuple (sql_cursor.__init__ c)) = Return ts)
   <-> Forall field_name_ok columns /\ NoDup (map nfkc columns)).
Proof.
  intros Hd Hrows. split.
  - intros [ts H]. revert H.
    unfold sql_cursor.rows2tuple, sql_cursor.__init__, keys.
    cbn [sql_cursor.rows]. rewrite Hd. cbn [bind].
    destruct (namedtuple "Record" columns) as [cls|e] eqn:Hn;
      [|discriminate].
    intros _. apply namedtuple_inv in Hn as (_ & Hok & Hnd). auto.
  - intros [Hok Hnd]. rewrite (rows2tuple_run c columns Hd Hok Hnd Hrows).
    eauto.
Qed.

Lemma rows2tuple_returns_iff_witness :
  description result_scores = Some ["id"; "score"] /\
  Forall (fun row => length row = length ["id"; "score"])
    (pending result_scores) /\
  ((exists ts,
      fst (sql_cursor.rows2tuple (sql_cursor.__init__ result_scores))
      = Return ts)
   <-> Forall field_name_ok ["id"; "score"]
       /\ NoDup (map nfkc ["id"; "score"])).
Proof.
  assert (H : Forall (fun row => length row = length ["id"; "score"])
                (pending result_scores)).
  { repeat constructor. }
  split; [reflexivity|]. split; [exact H|].
  exact (rows2tuple_returns_iff result_scores ["id"; "score"] eq_refl H).
Defined.

(** X28. Column names that [namedtuple] refuses cost no rows: the class
    is made before the rows are fetched, so after the [ValueError] the
    cursor is as it was and its mappings are still all rows. *)
Theorem refused_names_keep_rows (c : CursorResult) (columns : list string)
    (why : value_error) :
  description c = Some columns ->
  fst (sql_cursor.rows2tuple (sql_cursor.__init__ c))
  = Raise (ValueError why) ->
  snd (sql_cursor.rows2tuple (sql_cursor.__init__ c)) = sql_cursor.__init__ c
  /\ fst (sql_cursor.rows2dict
            (snd (sql_cursor.rows2tuple (sql_cursor.__init__ c))))
     = Return (map (combine columns) (pending c)).
Proof.
  intros Hd.
  unfold sql_cursor.rows2tuple, sql_cursor.__init__, fetchall, keys.
  cbn [sql_cursor.rows]. rewrite Hd. cbn [bind].
  destruct (namedtuple "Record" columns) as [cls|e] eqn:Hn.
  - cbn [fst bind]. intros H. exfalso.
    assert (Hnew : forall rows, mapM (new cls) rows <> Raise (ValueError why)).
    { induction rows as [|r rows IH]; simpl; [discriminate|].
      unfold new at 1.
      destruct (length r =? length cls)%nat; simpl.
      - destruct (mapM (new cls) rows) eqn:E; simpl;
          [discriminate|]. intros H'. apply IH. exact H'.
      - destruct (length r <? length cls)%nat; discriminate. }
    exact (Hnew (pending c) H).
  - cbn [fst snd]. intros _. split; [reflexivity|].
    unfold sql_cursor.rows2dict, mappings_all. cbn [sql_cursor.rows].
    rewrite Hd. reflexivity.
Qed.

Lemma refused_names_keep_rows_witness :
  description result_max = Some ["max(score)"] /\
  fst (sql_cursor.rows2tuple (sql_cursor.__init__ result_max))
  = Raise (ValueError (NotIdentifier "max(score)")) /\
  (snd (sql_cursor.rows2tuple (sql_cursor.__init__ result_max))
   = sql_cursor.__init__ result_max
   /\ fst (sql_cursor.rows2dict
             (snd (sql_cursor.rows2tuple (sql_cursor.__init__ result_max))))
      = Return (map (combine ["max(score)"]) (pending result_max))).
Proof.
  split; [reflexivity|]. split; [reflexivity|].
  exact (refused_names_keep_rows result_max ["max(score)"]
           (NotIdentifier "max(score)") eq_refl eq_refl).
Defined.

(** X29. For a result whose column names [namedtuple] takes and whose
    rows have one value per column, the rows are handed out once: the
    form asked of a cursor first, mappings or records, gets all rows, and
    either form asked of the same cursor afterwards gets the empty
    list. *)
Theorem rows_taken_once (c : CursorResult) (columns : list string) :
  description c = Some columns ->
  Forall field_name_ok columns ->
  NoDup (map nfkc columns) ->
  Forall (fun row => length row = length columns) (pending c) ->
  let cursor := sql_cursor.__init__ c in
  fst (sql_cursor.rows2dict cursor)
  = Return (map (combine columns) (pending c))
  /\ fst (sql_cursor.rows2tuple cursor)
     = Return (map (fun row => {| _fields := columns; items := row |})
                 (pending c))
  /\ fst (sql_cursor.rows2dict (snd (sql_cursor.rows2dict cursor)))
     = Return []
  /\ fst (sql_cursor.rows2tuple (snd (sql_cursor.rows2dict cursor)))
     = Return []
  /\ fst (sql_cursor.rows2dict (snd (sql_cursor.rows2tuple cursor)))
     = Return []
  /\ fst (sql_cursor.rows2tuple (snd (sql_cursor.rows2tuple cursor)))
     = Return [].
Proof.
  intros Hd Hok Hnd Hrows. cbv zeta.
  assert (Hd' : description (exhausted c) = Some columns) by exact Hd.
  assert (Hdict : forall c', description c' = Some columns ->
            sql_cursor.rows2dict (sql_cursor.__init__ c')
            = (Return (map (combine columns) (pending c')),
               sql_cursor.__init__ (exhausted c'))).
  { intros c' H.
    unfold sql_cursor.rows2dict, sql_cursor.__init__, mappings_all.
    cbn [sql_cursor.rows]. rewrite H. reflexivity. }
  assert (Hnone : Forall (fun row => length row = length columns)
                    (pending (exhausted c))) by constructor.
  rewrite (Hdict c Hd), (rows2tuple_run c columns Hd Hok Hnd Hrows).
  cbn [fst snd].
  rewrite (Hdict (exhausted c) Hd'),
    (rows2tuple_run (exhausted c) columns Hd' Hok Hnd Hnone).
  repeat split.
Qed.

Lemma rows_taken_once_witness :
  description result_scores = Some ["id"; "score"] /\
  Forall field_name_ok ["id"; "score"] /\
  NoDup (map nfkc ["id"; "score"]) /\
  Forall (fun row => length row = length ["id"; "score"])
    (pending result_scores) /\
  (let cursor := sql_cursor.__init__ result_scores in
   fst (sql_cursor.rows2dict cursor)
   = Return (map (combine ["id"; "score"]) (pending result_scores))
   /\ fst (sql_cursor.rows2tuple cursor)
      = Return (map (fun row => {| _fields := ["id"; "score"]; items := row |})
                  (pending result_scores))
   /\ fst (sql_cursor.rows2dict (snd (sql_cursor.rows2dict cursor)))
      = Return []
   /\ fst (sql_cursor.rows2tuple (snd (sql_cursor.rows2dict cursor)))
      = Return []
   /\ fst (sql_cursor.rows2dict (snd (sql_cursor.rows2tuple cursor)))
      = Return []
   /\ fst (sql_cursor.rows2tuple (snd (sql_cursor.rows2tuple cursor)))
      = Return []).
Proof.
  assert (H1 : Forall field_name_ok ["id"; "score"]).
  { repeat constructor. }
  assert (H2 : NoDup (map nfkc ["id"; "score"])).
  { apply (bool_decide_unpack _). vm_compute. exact I. }
  assert (H3 : Forall (fun row => length row = length ["id"; "score"])
                 (pending result_scores)).
  { repeat constructor. }
  split; [reflexivity|]. split; [exact H1|]. split; [exact H2|].
  split; [exact H3|].
  exact (rows_taken_once result_scores ["id"; "score"] eq_refl H1 H2 H3).
Defined.

End CursorMoreSpec.
